(** * Keep Calm and Fill the Form: the matching and geometry engine

    A shallow embedding of [src/app/api/detect/route.ts] (the detect route)
    and of the fill route that follows it in the same source file, with the
    declarations of [src/lib/types.ts] and what the page [src/app/page.tsx]
    computes for its requests to the fill route.

    Strings are [string], read as UTF-8 text; maps are stdpp's [gmap],
    sets are [gset].  JS numbers are the doubles, as the rationals [Q] they
    are: a sum, a difference and a product are the exact result rounded to
    the nearest double, a tie going to the even one ([JS.double]);
    comparison, [Math.min], [Math.max] and [Math.round] are exact.  The
    infinities and [NaN] are no numbers of the model: it describes the runs
    in which no operation overflows, and the one [NaN] that the page makes
    is a case of its own ([Page.NaNs]).  [null] and [undefined] are [None].
    A [try]/[catch] is an [option] whose [None] is the thrown exception. *)

From Stdlib Require Import String Ascii List Bool ZArith QArith Qminmax Qround Qpower Lia Lqa.
From stdpp Require Import base option list strings gmap.
Import ListNotations.
Local Open Scope string_scope.

(** ** JavaScript built-ins *)

Module JS.

(** A value of [JSON.parse].  The members of an object are in source
    order; a repeated key keeps its last value. *)
#[warning="-register-all"]
Inductive JSON :=
| JNull
| JBool (b : bool)
| JNumber (n : Q)
| JString (s : string)
| JArray (items : list JSON)
| JObject (members : list (string * JSON)).

(** The part of the JavaScript runtime that the routes call and that is
    left abstract: [String.prototype.toLowerCase] (Unicode aware),
    [JSON.parse] ([None]: it throws a [SyntaxError]) and the decimal form
    [String(n)] of a number. *)
Class Builtins := {
  toLowerCase : string -> string;
  JSON_parse : string -> option JSON;
  Number_toString : Q -> string;
}.

(** [[a-z0-9]], the complement of the class the normalizer deletes. *)
Definition is_lower_alnum (c : ascii) : bool :=
  let n := nat_of_ascii c in
  ((97 <=? n)%nat && (n <=? 122)%nat) || ((48 <=? n)%nat && (n <=? 57)%nat).

(** [value.replace(/[^a-z0-9]/g, "")] *)
Fixpoint remove_non_alnum (s : string) : string :=
  match s with
  | EmptyString => EmptyString
  | String c r =>
      if is_lower_alnum c then String c (remove_non_alnum r)
      else remove_non_alnum r
  end.

(** Strings over [[a-z0-9]] only. *)
Fixpoint all_lower_alnum (s : string) : bool :=
  match s with
  | EmptyString => true
  | String c r => is_lower_alnum c && all_lower_alnum r
  end.

(** [s.includes(sub)] *)
Fixpoint includes (s sub : string) : bool :=
  String.prefix sub s ||
  match s with
  | EmptyString => false
  | String _ r => includes r sub
  end.

(** Truthiness of a string-or-undefined value: [if (v)]. *)
Definition truthy (v : option string) : bool :=
  match v with
  | Some (String _ _) => true
  | _ => false
  end.

(** *** White space: the class [\s] of a regular expression, which is also
    what [trim] removes, as UTF-8 byte sequences *)

Definition bytes (l : list nat) : string :=
  string_of_list_ascii (ascii_of_nat <$> l).

Definition whiteSpace : list string :=
  bytes <$>
    [ [9]; [10]; [11]; [12]; [13]; [32];          (* \t \n \v \f \r space *)
      [194; 160];                                  (* U+00A0 *)
      [225; 154; 128];                             (* U+1680 *)
      [226; 128; 128]; [226; 128; 129]; [226; 128; 130]; [226; 128; 131];
      [226; 128; 132]; [226; 128; 133]; [226; 128; 134]; [226; 128; 135];
      [226; 128; 136]; [226; 128; 137]; [226; 128; 138];   (* U+2000-200A *)
      [226; 128; 168]; [226; 128; 169]; [226; 128; 175];   (* U+2028 2029 202F *)
      [226; 129; 159];                             (* U+205F *)
      [227; 128; 128];                             (* U+3000 *)
      [239; 187; 191] ].                           (* U+FEFF *)

(** [s] without its prefix [p], when it starts with [p]. *)
Fixpoint dropPrefix (p s : string) : option string :=
  match p, s with
  | EmptyString, _ => Some s
  | String a p', String b s' => if Ascii.eqb a b then dropPrefix p' s' else None
  | String _ _, EmptyString => None
  end.

(** [s] without one leading occurrence of one of [pats]. *)
Fixpoint dropOne (pats : list string) (s : string) : option string :=
  match pats with
  | [] => None
  | EmptyString :: rest => dropOne rest s
  | p :: rest =>
      match dropPrefix p s with
      | Some r => Some r
      | None => dropOne rest s
      end
  end.

Fixpoint dropAll (fuel : nat) (pats : list string) (s : string) : string :=
  match fuel with
  | O => s
  | S fuel =>
      match dropOne pats s with
      | Some r => dropAll fuel pats r
      | None => s
      end
  end.

Definition reverse (s : string) : string :=
  string_of_list_ascii (rev (list_ascii_of_string s)).

Definition trimStart (s : string) : string :=
  dropAll (String.length s) whiteSpace s.

Definition trimEnd (s : string) : string :=
  reverse (dropAll (String.length s) (reverse <$> whiteSpace) (reverse s)).

(** [s.trim()] *)
Definition trim (s : string) : string := trimEnd (trimStart s).

(** *** Coercions and property access on parsed values *)

(** [String(v)]; [None] is the [TypeError] of an object that has a
    [toString] member of its own (no parsed value is callable). *)
Fixpoint String_ `{!Builtins} (v : JSON) : option string :=
  match v with
  | JNull => Some "null"
  | JBool true => Some "true"
  | JBool false => Some "false"
  | JNumber n => Some (Number_toString n)
  | JString s => Some s
  | JArray items =>
      (* [Array.prototype.join]: [null] elements give the empty string *)
      (fix join (items : list JSON) : option string :=
         match items with
         | [] => Some ""
         | e :: rest =>
             s ← match e with JNull => Some "" | _ => String_ e end;
             match rest with
             | [] => Some s
             | _ => r ← join rest; Some (s ++ "," ++ r)
             end
         end) items
  | JObject members =>
      if existsb (fun kv => String.eqb (fst kv) "toString") members
      then None else Some "[object Object]"
  end.

(** The member [key] of an object: the last one of that name. *)
Definition member (members : list (string * JSON)) (key : string) : option JSON :=
  snd <$> find (fun kv => String.eqb (fst kv) key) (rev members).

(** [v.key]: outer [None] is the [TypeError] of reading a property of
    [null]; inner [None] is [undefined].  None of the keys the routes read
    is inherited from a prototype. *)
Definition prop (v : JSON) (key : string) : option (option JSON) :=
  match v with
  | JNull => None
  | JObject members => Some (member members key)
  | _ => Some None
  end.

(** [v?.key] *)
Definition optProp (v : JSON) (key : string) : option JSON :=
  match v with
  | JObject members => member members key
  | _ => None
  end.

(** [v ?? d], for [v] possibly [undefined] *)
Definition nullish (v : option JSON) (d : JSON) : JSON :=
  match v with
  | None | Some JNull => d
  | Some v => v
  end.

(** Truthiness of a possibly undefined parsed value. *)
Definition truthyValue (v : option JSON) : bool :=
  match v with
  | None | Some JNull | Some (JBool false) => false
  | Some (JNumber n) => negb (Qeq_bool n 0)
  | Some (JString s) => truthy (Some s)
  | Some _ => true
  end.

(** [typeof v === "number" ? v : undefined] *)
Definition asNumber (v : option JSON) : option Q :=
  match v with
  | Some (JNumber n) => Some n
  | _ => None
  end.

(** *** Numbers: binary64 *)

(** The integer nearest to a number, a tie going to the even one. *)
Definition nearestEven (q : Q) : Z :=
  let f := Qfloor q in
  match Qcompare (q - inject_Z f)%Q (1 # 2) with
  | Lt => f
  | Gt => (f + 1)%Z
  | Eq => if Z.even f then f else (f + 1)%Z
  end.

(** The exponent of the power of two at or below a positive number. *)
Definition ilog2 (q : Q) : Z :=
  let k := (Z.log2 (Qnum q) - Z.log2 (Z.pos (Qden q)))%Z in
  if Qle_bool (2 ^ k)%Q q then k else (k - 1)%Z.

(** A positive number on the grid of its binade: 53 bits, and the spacing
    [2 ^ -1074] of the subnormal numbers at the least. *)
Definition roundPositive (q : Q) : Q :=
  let e := Z.max (-1074) (ilog2 q - 52) in
  (inject_Z (nearestEven (q / 2 ^ e)) * 2 ^ e)%Q.

(** The double nearest to a number, in lowest terms. *)
Definition double (q : Q) : Q :=
  Qred match Qcompare q 0 with
       | Eq => 0
       | Gt => roundPositive q
       | Lt => (- roundPositive (- q))%Q
       end.

Definition isDouble (q : Q) : Prop := double q = q.

(** [a + b], [a - b] and [a * b] *)
Definition add (a b : Q) : Q := double (a + b).
Definition sub (a b : Q) : Q := double (a - b).
Definition mul (a b : Q) : Q := double (a * b).

(** *** [Object.prototype] *)

(** Its members, each with [String] of what reading it gives, as V8
    prints a built-in function.  An object literal and an object that
    [JSON.parse] made have them without having been given them. *)
Definition builtin (name : string) : string * string :=
  (name, "function " ++ name ++ "() { [native code] }").

Definition Object_prototype : list (string * string) :=
  [ ("constructor", "function Object() { [native code] }");
    builtin "__defineGetter__"; builtin "__defineSetter__";
    builtin "hasOwnProperty"; builtin "__lookupGetter__";
    builtin "__lookupSetter__"; builtin "isPrototypeOf";
    builtin "propertyIsEnumerable"; builtin "toString"; builtin "valueOf";
    ("__proto__", "[object Object]");
    builtin "toLocaleString" ].

(** [String(obj[key])] for a key that [obj] has only from its prototype. *)
Definition inherited (key : string) : option string :=
  snd <$> find (fun member => String.eqb (fst member) key) Object_prototype.

(** *** The code fence of a recognizer answer *)

(** ASCII lower case: the case folding of the [i] flag on the letters of
    the pattern. *)
Definition ascii_lower (c : ascii) : ascii :=
  let n := nat_of_ascii c in
  if ((65 <=? n)%nat && (n <=? 90)%nat) then ascii_of_nat (n + 32) else c.

Fixpoint dropPrefixNoCase (p s : string) : option string :=
  match p, s with
  | EmptyString, _ => Some s
  | String a p', String b s' =>
      if Ascii.eqb (ascii_lower a) (ascii_lower b) then dropPrefixNoCase p' s'
      else None
  | String _ _, EmptyString => None
  end.

(** The text before the first occurrence of [sep] in [s]. *)
Fixpoint before (sep s : string) : option string :=
  if String.prefix sep s then Some EmptyString
  else match s with
       | EmptyString => None
       | String c r => String c <$> before sep r
       end.

Definition fence : string := bytes [96; 96; 96].

(** Group 1 of the first match of [/```json\s*([\s\S]*?)```/i] in [raw]:
    after the opening fence the white space is skipped, and the group is
    the text up to the next fence. *)
Fixpoint matchFence (raw : string) : option string :=
  match rest ← dropPrefixNoCase (fence ++ "json") raw; before fence (trimStart rest) with
  | Some inner => Some inner
  | None =>
      match raw with
      | EmptyString => None
      | String _ r => matchFence r
      end
  end.

End JS.

(** ** A reference implementation of the built-ins

    It agrees with the JavaScript runtime on ASCII text and on JSON texts
    without exponents and [\u] escapes, and is what the examples are
    evaluated with. *)

Module Reference.

Fixpoint toLowerCase (s : string) : string :=
  match s with
  | EmptyString => EmptyString
  | String c r => String (JS.ascii_lower c) (toLowerCase r)
  end.

(** *** Decimal numbers *)

Definition digit (c : ascii) : option Z :=
  let n := nat_of_ascii c in
  if ((48 <=? n)%nat && (n <=? 57)%nat) then Some (Z.of_nat (n - 48)) else None.

(** The digits at the head of [s]: their value after [acc], how many
    there are, and the rest of [s]. *)
Fixpoint digits (s : string) (acc : Z) (count : nat) : Z * nat * string :=
  match s with
  | EmptyString => (acc, count, s)
  | String c r =>
      match digit c with
      | Some d => digits r (10 * acc + d)%Z (S count)
      | None => (acc, count, s)
      end
  end.

Definition isExponent (s : string) : bool :=
  match s with
  | String c _ => Ascii.eqb (JS.ascii_lower c) "e"
  | EmptyString => false
  end.

(** [-? int frac?] of the JSON grammar, as the double nearest to it; an
    exponent is not read. *)
Definition number (s : string) : option (Q * string) :=
  let '(negative, s) :=
    match s with
    | String "-" r => (true, r)
    | _ => (false, s)
    end in
  let '(int, n, r) := digits s 0 0 in
  let leadingZero := match s with String "0" _ => (1 <? n)%nat | _ => false end in
  if (n =? 0)%nat || leadingZero then None else
  let sign (v : Q) : Q := if negative then Qopp v else v in
  match r with
  | String "." r' =>
      let '(frac, m, r'') := digits r' 0 0 in
      if (m =? 0)%nat || isExponent r'' then None
      else Some (JS.double (sign (Qmake (int * 10 ^ Z.of_nat m + frac)
                                        (Z.to_pos (10 ^ Z.of_nat m)))), r'')
  | _ => if isExponent r then None else Some (JS.double (sign (inject_Z int)), r)
  end.

Definition digitChar (d : Z) : ascii := ascii_of_nat (48 + Z.to_nat d).

Fixpoint natural (fuel : nat) (n : Z) (acc : string) : string :=
  match fuel with
  | O => acc
  | S fuel =>
      let acc := String (digitChar (n mod 10)) acc in
      if (n <? 10)%Z then acc else natural fuel (n / 10)%Z acc
  end.

Fixpoint fraction (fuel : nat) (num : Z) (den : Z) : string :=
  match fuel with
  | O => EmptyString
  | S fuel =>
      if (num =? 0)%Z then EmptyString
      else String (digitChar (10 * num / den)) (fraction fuel ((10 * num) mod den) den)
  end.

(** [String(n)] for an integer or a short terminating decimal. *)
Definition Number_toString (n : Q) : string :=
  let n := Qred n in
  let num := Z.abs (Qnum n) in
  let den := Zpos (Qden n) in
  let int := natural (S (Z.to_nat (Z.log2 (num / den + 1)))) (num / den) EmptyString in
  let frac := fraction 20 (num mod den) den in
  ((if (Qnum n <? 0)%Z then "-" else "") ++ int ++
   (match frac with EmptyString => "" | _ => "." ++ frac end))%string.

(** *** A reader of JSON texts *)

Definition isJsonSpace (c : ascii) : bool :=
  let n := nat_of_ascii c in
  (n =? 32)%nat || (n =? 9)%nat || (n =? 10)%nat || (n =? 13)%nat.

Fixpoint skip (s : string) : string :=
  match s with
  | String c r => if isJsonSpace c then skip r else s
  | EmptyString => s
  end.

Definition quote : ascii := ascii_of_nat 34.

(** The character an escape sequence stands for; [\u] is not read. *)
Definition unescape (e : ascii) : option ascii :=
  if Ascii.eqb e quote then Some quote
  else if Ascii.eqb e "\" then Some "\"%char
  else if Ascii.eqb e "/" then Some "/"%char
  else if Ascii.eqb e "b" then Some (ascii_of_nat 8)
  else if Ascii.eqb e "f" then Some (ascii_of_nat 12)
  else if Ascii.eqb e "n" then Some (ascii_of_nat 10)
  else if Ascii.eqb e "r" then Some (ascii_of_nat 13)
  else if Ascii.eqb e "t" then Some (ascii_of_nat 9)
  else None.

(** The characters of a string literal after its opening quote, and the
    text after its closing quote. *)
Fixpoint chars (s : string) : option (string * string) :=
  match s with
  | EmptyString => None
  | String c r =>
      if Ascii.eqb c quote then Some (EmptyString, r)
      else if Ascii.eqb c "\" then
        match r with
        | String e r' =>
            c' ← unescape e;
            '(body, rest) ← chars r';
            Some (String c' body, rest)
        | EmptyString => None
        end
      else if (nat_of_ascii c <? 32)%nat then None
      else '(body, rest) ← chars r; Some (String c body, rest)
  end.

Fixpoint value (fuel : nat) (s : string) : option (JS.JSON * string) :=
  match fuel with
  | O => None
  | S fuel =>
      match skip s with
      | String "[" r =>
          match skip r with
          | String "]" r' => Some (JS.JArray [], r')
          | _ => '(items, r') ← elements fuel r; Some (JS.JArray items, r')
          end
      | String "{" r =>
          match skip r with
          | String "}" r' => Some (JS.JObject [], r')
          | _ => '(ms, r') ← members fuel r; Some (JS.JObject ms, r')
          end
      | String c r as other =>
          if Ascii.eqb c quote
          then '(body, r') ← chars r; Some (JS.JString body, r')
          else
            match JS.dropPrefix "true" other, JS.dropPrefix "false" other,
                  JS.dropPrefix "null" other with
            | Some r, _, _ => Some (JS.JBool true, r)
            | _, Some r, _ => Some (JS.JBool false, r)
            | _, _, Some r => Some (JS.JNull, r)
            | _, _, _ => '(n, r) ← number other; Some (JS.JNumber n, r)
            end
      | EmptyString => None
      end
  end
with elements (fuel : nat) (s : string) : option (list JS.JSON * string) :=
  match fuel with
  | O => None
  | S fuel =>
      '(v, r) ← value fuel s;
      match skip r with
      | String "," r' => '(vs, r'') ← elements fuel r'; Some (v :: vs, r'')
      | String "]" r' => Some ([v], r')
      | _ => None
      end
  end
with members (fuel : nat) (s : string) : option (list (string * JS.JSON) * string) :=
  match fuel with
  | O => None
  | S fuel =>
      match skip s with
      | String c r =>
          if Ascii.eqb c quote then
            '(key, r) ← chars r;
            match skip r with
            | String ":" r =>
                '(v, r) ← value fuel r;
                match skip r with
                | String "," r' =>
                    '(ms, r'') ← members fuel r'; Some ((key, v) :: ms, r'')
                | String "}" r' => Some ([(key, v)], r')
                | _ => None
                end
            | _ => None
            end
          else None
      | EmptyString => None
      end
  end.

(** [s] between quotes, and a member [key: value], for writing JSON texts. *)
Definition quoted (s : string) : string :=
  String quote (s ++ String quote EmptyString).

Definition member (key value : string) : string :=
  quoted key ++ ": " ++ value.

Definition JSON_parse (text : string) : option JS.JSON :=
  '(v, r) ← value (S (String.length text)) text;
  match skip r with
  | EmptyString => Some v
  | _ => None
  end.

Definition builtins : JS.Builtins :=
  {| JS.toLowerCase := toLowerCase;
     JS.JSON_parse := JSON_parse;
     JS.Number_toString := Number_toString |}.

End Reference.

(** ** [src/lib/types.ts] *)

Module Types.

Inductive FieldType := text | email | number | date | checkbox | radio | select.

Record FieldBBox := {
  page : Q;               (* zero-based page index *)
  x : Q;                  (* normalized [0,1] from left *)
  y : Q;                  (* normalized [0,1] from top *)
  width : option Q;       (* normalized [0,1] *)
  height : option Q;      (* normalized [0,1] *)
}.

Record DetectedField := {
  name : string;
  label : string;
  type : FieldType;
  options : option (list string);
  placeholder : option string;
  bbox : option FieldBBox;
  fontScale : option Q;
}.

(** [string | boolean], the values of [FillPayload.values]. *)
Inductive Value := VString (s : string) | VBoolean (b : bool).

(** [values] is a JS object: its keys in [Object.keys] order with their
    values. *)
Record FillPayload := {
  pdfBase64 : string;
  values : option (list (string * Value));
  fields : option (list DetectedField);
}.

#[global] Instance FieldType_eq_dec : EqDecision FieldType.
Proof. solve_decision. Defined.

End Types.

(** ** The document library (pdf-lib), as far as the routes use it *)

Module PdfLib.

Inductive FieldClass :=
| PDFTextField | PDFCheckBox | PDFRadioGroup | PDFDropdown | PDFOptionList
| PDFButton | PDFSignature.

Record PDFField := {
  getName : string;
  fieldClass : FieldClass;
  getOptions : option (list string);   (* [None]: [getOptions()] throws *)
}.

Record PDFPage := { getWidth : Q; getHeight : Q }.

(** A loaded document: [getForm().getFields()] and [getPages()]. *)
Record PDFDocument := {
  getFields : list PDFField;
  getPages : list PDFPage;
}.

#[global] Instance FieldClass_eq_dec : EqDecision FieldClass.
Proof. solve_decision. Defined.

(** [form.getField(name)]: the first field of that name; [None] is the
    thrown [NoSuchFieldError]. *)
Definition getField (form : list PDFField) (name : string) : option PDFField :=
  find (fun f => String.eqb (getName f) name) form.

(** The typed accessors: the field when it is of the class asked for,
    [None] (a thrown error) otherwise. *)
Definition getTyped (c : FieldClass) (form : list PDFField) (name : string)
  : option PDFField :=
  match getField form name with
  | Some f => if bool_decide (fieldClass f = c) then Some f else None
  | None => None
  end.

Definition getTextField := getTyped PDFTextField.
Definition getCheckBox := getTyped PDFCheckBox.
Definition getRadioGroup := getTyped PDFRadioGroup.
Definition getDropdown := getTyped PDFDropdown.
Definition getOptionList := getTyped PDFOptionList.

End PdfLib.

(** ** The detect route *)

Module Detect.

Inductive FieldKind := text | checkbox | radio | dropdown | optionlist | unknown.

#[global] Instance FieldKind_eq_dec : EqDecision FieldKind.
Proof. solve_decision. Defined.

(** The result of [parseResponse]. *)
Record Detection := {
  fields : list Types.DetectedField;
  title : option string;
}.

Inductive Response :=
| Json (fields : list Types.DetectedField) (title : option string)
       (probed : list string)     (* 200; the names [detectFieldKind] was called on *)
| ErrorResponse (error : string) (status : nat)
| Uncaught.                       (* an exception leaves [POST] *)

Definition nativeFormError : string :=
  "This PDF already has fillable fields. Please fill it directly in your PDF reader. This app focuses on flat/image PDFs.".

(** Each probe is a [try { form.getX(name); return kind } catch {}]. *)
Definition detectFieldKind (form : list PdfLib.PDFField) (name : string)
  : FieldKind :=
  match PdfLib.getTextField form name with Some _ => text | None =>
  match PdfLib.getCheckBox form name with Some _ => checkbox | None =>
  match PdfLib.getRadioGroup form name with Some _ => radio | None =>
  match PdfLib.getDropdown form name with Some _ => dropdown | None =>
  match PdfLib.getOptionList form name with Some _ => optionlist | None =>
  unknown
  end end end end end.

(** [allowedTypes], as the partial inverse of the names of the types. *)
Definition allowedType (s : string) : option Types.FieldType :=
  if String.eqb s "text" then Some Types.text
  else if String.eqb s "email" then Some Types.email
  else if String.eqb s "number" then Some Types.number
  else if String.eqb s "date" then Some Types.date
  else if String.eqb s "checkbox" then Some Types.checkbox
  else if String.eqb s "radio" then Some Types.radio
  else if String.eqb s "select" then Some Types.select
  else None.

Section route.
Context `{!JS.Builtins}.

(** [const normalize = (value) => value.toLowerCase().replace(/[^a-z0-9]/g, "")] *)
Definition normalize (value : string) : string :=
  JS.remove_non_alnum (JS.toLowerCase value).

Definition resolveFieldName (requested : string) (available : list string)
  : option string :=
  let normalizedRequested := normalize requested in
  let exact := find (fun name => String.eqb name requested) available in
  if JS.truthy exact then exact else
  let caseInsensitive :=
    find (fun name => String.eqb (JS.toLowerCase name) (JS.toLowerCase requested))
         available in
  if JS.truthy caseInsensitive then caseInsensitive else
  let normalizedMatch :=
    find (fun name => String.eqb (normalize name) normalizedRequested) available in
  if JS.truthy normalizedMatch then normalizedMatch else
  let contains :=
    find (fun name => JS.includes (normalize name) normalizedRequested) available in
  if JS.truthy contains then contains else
  None.

(** The [bbox] member of the object literal of [parseResponse]. *)
Definition bboxOf (bbox : option JS.JSON) : option Types.FieldBBox :=
  match bbox with
  | Some (JS.JObject _ as bbox) =>
      match JS.asNumber (JS.optProp bbox "page"),
            JS.asNumber (JS.optProp bbox "x"),
            JS.asNumber (JS.optProp bbox "y") with
      | Some page, Some x, Some y =>
          Some {| Types.page := page; Types.x := x; Types.y := y;
                  Types.width := JS.asNumber (JS.optProp bbox "width");
                  Types.height := JS.asNumber (JS.optProp bbox "height") |}
      | _, _, _ => None
      end
  | _ => None            (* falsy, not an object, or an array: no numeric [page] *)
  end.

(** The callback of [fieldsRaw.map]; [None] is a thrown [TypeError]. *)
Definition mapItem (item : JS.JSON) : option Types.DetectedField :=
  item_name ← JS.prop item "name";
  item_label ← JS.prop item "label";
  item_type ← JS.prop item "type";
  item_placeholder ← JS.prop item "placeholder";
  item_options ← JS.prop item "options";
  item_bbox ← JS.prop item "bbox";
  name ← JS.String_ (JS.nullish item_name (JS.JString ""));
  label ← JS.String_ (JS.nullish item_label (JS.nullish item_name (JS.JString "")));
  type ← JS.String_ (JS.nullish item_type (JS.JString ""));
  placeholder ←
    match item_placeholder with
    | Some v => if JS.truthyValue (Some v) then Some <$> JS.String_ v else Some None
    | None => Some None
    end;
  options ←
    match item_options with
    | Some (JS.JArray opts) => Some <$> mapM JS.String_ opts
    | _ => Some None
    end;
  Some {| Types.name := JS.trim name;
          Types.label := JS.trim label;
          Types.type := default Types.text (allowedType (JS.toLowerCase type));
          Types.options := options;
          Types.placeholder := placeholder;
          Types.bbox := bboxOf item_bbox;
          Types.fontScale := None |}.

(** [raw.match(/```json\s*([\s\S]*?)```/i)?.[1] ?? raw] *)
Definition jsonBlock (raw : string) : string :=
  default raw (JS.matchFence raw).

(** [Array.isArray(parsed) ? { fields: parsed } : parsed] *)
Definition payload (parsed : JS.JSON) : JS.JSON :=
  match parsed with
  | JS.JArray _ => JS.JObject [("fields", parsed)]
  | _ => parsed
  end.

(** [Array.isArray(payload?.fields) ? payload.fields : []] *)
Definition fieldsRaw (parsed : JS.JSON) : list JS.JSON :=
  match JS.optProp (payload parsed) "fields" with
  | Some (JS.JArray items) => items
  | _ => []
  end.

(** The test of [.filter((f) => f.name && f.label)]. *)
Definition keep (f : Types.DetectedField) : bool :=
  JS.truthy (Some (Types.name f)) && JS.truthy (Some (Types.label f)).

Definition titleOf (parsed : JS.JSON) : option string :=
  match JS.optProp (payload parsed) "title" with
  | Some (JS.JString t) =>
      if (0 <? String.length (JS.trim t))%nat then Some (JS.trim t) else None
  | _ => None
  end.

(** The body of the [try] of [parseResponse]; [None] is a thrown exception. *)
Definition parseBlock (jsonBlock : string) : option Detection :=
  parsed ← JS.JSON_parse jsonBlock;
  mapped ← mapM mapItem (fieldsRaw parsed);
  Some {| fields := List.filter keep mapped; title := titleOf parsed |}.

Definition parseResponse (raw : string) : Detection :=
  match parseBlock (jsonBlock raw) with
  | Some detection => detection
  | None => {| fields := []; title := None |}     (* catch (error) *)
  end.

(** One pass of the enrichment loop of [POST]: the field as the pass
    leaves it, and the name given to [detectFieldKind], if any. *)
Definition enrich (form : list PdfLib.PDFField) (pdfFieldNames : list string)
    (field : Types.DetectedField) : Types.DetectedField * option string :=
  match resolveFieldName (Types.name field) pdfFieldNames with
  | Some (String _ _ as resolved) =>
      let kind := detectFieldKind form resolved in
      let type :=
        if bool_decide (kind = radio) then Types.radio
        else if bool_decide (kind = checkbox) then Types.checkbox
        else if bool_decide (kind = dropdown \/ kind = optionlist) then Types.select
        else Types.type field in
      let options : option (list string) :=
        if bool_decide (kind = dropdown) then
          PdfLib.getDropdown form resolved ≫= PdfLib.getOptions
        else if bool_decide (kind = optionlist) then
          PdfLib.getOptionList form resolved ≫= PdfLib.getOptions
        else if bool_decide (kind = radio) then
          PdfLib.getRadioGroup form resolved ≫= PdfLib.getOptions
        else None in
      let fieldOptions :=
        match options with
        | Some ((_ :: _) as options) =>
            match Types.options field with
            | None => Some options
            | Some old =>
                if (length old <? length options)%nat then Some options
                else Some old
            end
        | _ => Types.options field
        end in
      ({| Types.name := Types.name field;
          Types.label := Types.label field;
          Types.type := type;
          Types.options := fieldOptions;
          Types.placeholder := Types.placeholder field;
          Types.bbox := Types.bbox field;
          Types.fontScale := Types.fontScale field |},
       Some resolved)
  | _ => (field, None)                                (* if (!resolved) continue *)
  end.

(** [apiKey] is [process.env.GEMINI_API_KEY]; [file] the bytes of the
    uploaded file, if one was sent; [PDFDocument_load] is
    [PDFDocument.load] ([None]: it throws); [generateContent] the text the
    recognizer answers for the document ([None]: the call throws). *)
Definition POST (PDFDocument_load : string -> option PdfLib.PDFDocument)
    (generateContent : string -> option string)
    (apiKey : option string) (file : option string) : Response :=
  if negb (JS.truthy apiKey) then ErrorResponse "Missing GEMINI_API_KEY" 500 else
  match file with
  | None => ErrorResponse "PDF file is required" 400
  | Some pdfBuffer =>
      match PDFDocument_load pdfBuffer with
      | None => Uncaught
      | Some pdfDoc =>
          let existingFormFields := PdfLib.getFields pdfDoc in
          if (0 <? length existingFormFields)%nat
          then ErrorResponse nativeFormError 400 else
          match generateContent pdfBuffer with
          | None => ErrorResponse "Failed to detect fields from PDF" 500
          | Some answer =>
              let parsed := parseResponse (JS.trim answer) in
              let form := PdfLib.getFields pdfDoc in
              let pdfFieldNames := PdfLib.getName <$> form in
              let enriched := enrich form pdfFieldNames <$> fields parsed in
              Json (fst <$> enriched) (title parsed) (omap snd enriched)
          end
      end
  end.

End route.
End Detect.

(** ** The fill route *)

Module Fill.

Inductive PdfFieldKind := text | checkbox | radio | dropdown | optionlist | unknown.

#[global] Instance PdfFieldKind_eq_dec : EqDecision PdfFieldKind.
Proof. solve_decision. Defined.

(** Each probe is a [try { form.getX(name); return kind } catch {}]. *)
Definition detectFieldKind (form : list PdfLib.PDFField) (name : string)
  : PdfFieldKind :=
  match PdfLib.getTextField form name with Some _ => text | None =>
  match PdfLib.getCheckBox form name with Some _ => checkbox | None =>
  match PdfLib.getRadioGroup form name with Some _ => radio | None =>
  match PdfLib.getDropdown form name with Some _ => dropdown | None =>
  match PdfLib.getOptionList form name with Some _ => optionlist | None =>
  unknown
  end end end end end.

(** The loop variable of [POST]: a [DetectedField] of the payload, or a
    bare [{ name }] made from a key of [values]; the loop reads its
    [name], [type] and [bbox]. *)
Record Proposal := {
  name : string;
  type : option Types.FieldType;
  bbox : option Types.FieldBBox;
}.

Definition ofDetectedField (f : Types.DetectedField) : Proposal :=
  {| name := Types.name f; type := Some (Types.type f); bbox := Types.bbox f |}.

Definition ofName (n : string) : Proposal :=
  {| name := n; type := None; bbox := None |}.

(** The arguments of [page.drawText]. *)
Record DrawText := {
  dt_page : Z;
  dt_text : string;
  dt_x : Q;
  dt_y : Q;
  dt_size : Q;
}.

(** What one iteration of the loop does to the document or the console. *)
Inductive Effect :=
| applyValueToField (fieldName : string) (value : Types.Value)
| drawValueAtBBox_ (field : Proposal) (value : Types.Value) (drawn : option DrawText)
| console_warn (requested : string).

Section route.
Context `{!JS.Builtins}.

Definition normalize (value : string) : string :=
  JS.remove_non_alnum (JS.toLowerCase value).

(** [kindMap.get(name) ?? "unknown"] *)
Definition kindOf (kindMap : gmap string PdfFieldKind) (name : string)
  : PdfFieldKind :=
  default unknown (kindMap !! name).

Definition resolveFieldName (requested : string) (available : list string)
    (kindMap : gmap string PdfFieldKind) (preferredKinds : list PdfFieldKind)
  : option string :=
  let normalizedRequested := normalize requested in
  let exact := find (fun name => String.eqb name requested) available in
  if JS.truthy exact then exact else
  let caseInsensitive :=
    find (fun name => String.eqb (JS.toLowerCase name) (JS.toLowerCase requested))
         available in
  if JS.truthy caseInsensitive then caseInsensitive else
  let normalizedMatch :=
    find (fun name => String.eqb (normalize name) normalizedRequested) available in
  if JS.truthy normalizedMatch then normalizedMatch else
  let contains :=
    filter (fun name => JS.includes (normalize name) normalizedRequested = true)
           available in
  if (length contains =? 1)%nat then head contains else
  let kindMatch :=
    if (1 <? length contains)%nat && negb (length preferredKinds =? 0)%nat
    then find (fun name => bool_decide (kindOf kindMap name ∈ preferredKinds))
              contains
    else None in
  if JS.truthy kindMatch then kindMatch else
  None.

(** *** Overlay geometry: the locals of [drawValueAtBBox] *)

(** [Math.round]: to the nearest integer, halves upwards. *)
Definition Math_round (v : Q) : Z := Qfloor (v + (1 # 2))%Q.

(** Lines 397-401: the index into [pages], given [pages.length].  The
    [page] of a [FieldBBox] is a number, so the default of
    [field.bbox.page ?? 0] is not taken. *)
Definition pageIndex (pagesLength : Z) (b : Types.FieldBBox) : Z :=
  let pageIndex := Math_round (Types.page b) in
  let pageIndex :=
    if (pagesLength <=? pageIndex)%Z && (0 <? pageIndex)%Z
    then (pageIndex - 1)%Z   (* treat incoming pages as 1-based if out of range *)
    else pageIndex in
  Z.max 0 (Z.min (pagesLength - 1) pageIndex).

Definition isNormalized (b : Types.FieldBBox) : bool :=
  Qle_bool (Types.x b) 1%Q && Qle_bool (Types.y b) 1%Q &&
  Qle_bool (default 0%Q (Types.width b)) 1%Q &&
  Qle_bool (default 0%Q (Types.height b)) 1%Q.

(** The literals [0.4], [0.04] and [0.6] are the doubles nearest to them;
    [0.25] and the integers are doubles. *)
Definition rawWidth (b : Types.FieldBBox) (pageWidth : Q) : Q :=
  default (if isNormalized b then JS.double 0.4
           else JS.mul pageWidth (JS.double 0.4)) (Types.width b).

Definition rawHeight (b : Types.FieldBBox) : Q :=
  default (if isNormalized b then JS.double 0.04 else 24%Q) (Types.height b).

Definition width (b : Types.FieldBBox) (pageWidth : Q) : Q :=
  if isNormalized b then JS.mul (rawWidth b pageWidth) pageWidth
  else rawWidth b pageWidth.

Definition height (b : Types.FieldBBox) (pageHeight : Q) : Q :=
  if isNormalized b then JS.mul (rawHeight b) pageHeight else rawHeight b.

Definition x (b : Types.FieldBBox) (pageWidth : Q) : Q :=
  if isNormalized b
  then JS.mul (Qmax 0 (Qmin 1 (Types.x b))) pageWidth
  else Qmax 0 (Qmin (JS.sub pageWidth (width b pageWidth)) (Types.x b)).

Definition yFromTop (b : Types.FieldBBox) (pageHeight : Q) : Q :=
  if isNormalized b
  then JS.mul (Qmax 0 (Qmin 1 (Types.y b))) pageHeight
  else Qmax 0 (Qmin pageHeight (Types.y b)).

Definition padding (b : Types.FieldBBox) (pageHeight : Q) : Q :=
  Qmin 6 (JS.mul (height b pageHeight) 0.25).

Definition y (b : Types.FieldBBox) (pageHeight : Q) : Q :=
  Qmin (JS.sub pageHeight (padding b pageHeight))
       (Qmax (padding b pageHeight)
             (JS.add (JS.sub (JS.sub pageHeight (yFromTop b pageHeight))
                             (height b pageHeight))
                     (padding b pageHeight))).

Definition fontSize (b : Types.FieldBBox) (pageHeight : Q) : Q :=
  Qmin 16 (Qmax 9 (JS.mul (height b pageHeight) (JS.double 0.6))).

(** [String(value)] *)
Definition String_ (value : Types.Value) : string :=
  match value with
  | Types.VString s => s
  | Types.VBoolean true => "true"
  | Types.VBoolean false => "false"
  end.

Definition text_ (value : Types.Value) : string :=
  match value with
  | Types.VBoolean true => "Yes"
  | Types.VBoolean false => "No"
  | _ => String_ value
  end.

(** The call of [page.drawText] it ends in, or [None] when it returns
    before drawing (no [bbox], or no page at the index). *)
Definition drawValueAtBBox (pdfDoc : PdfLib.PDFDocument) (field : Proposal)
    (value : Types.Value) : option DrawText :=
  match bbox field with
  | None => None
  | Some b =>
      let pages := PdfLib.getPages pdfDoc in
      let pageIndex := pageIndex (Z.of_nat (length pages)) b in
      match pages !! Z.to_nat pageIndex with
      | None => None
      | Some page =>
          let pageWidth := PdfLib.getWidth page in
          let pageHeight := PdfLib.getHeight page in
          Some {| dt_page := pageIndex;
                  dt_text := text_ value;
                  dt_x := Qmin (JS.sub pageWidth 4)
                               (Qmax 2 (JS.add (x b pageWidth) 2));
                  dt_y := Qmax 2 (y b pageHeight);
                  dt_size := fontSize b pageHeight |}
      end
  end.

(** *** The fill loop of [POST] *)

(** A property of the object [payload.values] of its own. *)
Definition own (values : list (string * Types.Value)) (key : string)
  : option Types.Value :=
  snd <$> find (fun kv => String.eqb (fst kv) key) values.

(** [payload.values[field.name]]: the property of the object of its own
    or, for a key it has none of, the member of [Object.prototype] of that
    name; [None] is [undefined] and [null], which the loop skips alike.
    A member of the prototype is a function or an object: it is neither,
    it is no boolean, and all the route does with it besides is to take
    [String] of it, so it is the string [String] gives. *)
Definition valueOf (values : list (string * Types.Value)) (key : string)
  : option Types.Value :=
  match own values key with
  | Some value => Some value
  | None => Types.VString <$> JS.inherited key
  end.

Definition desiredKindsOf (type : option Types.FieldType) : list PdfFieldKind :=
  (if bool_decide (type = Some Types.checkbox) then [checkbox] else []) ++
  (if bool_decide (type = Some Types.radio) then [radio] else []) ++
  (if bool_decide (type = Some Types.select) then [dropdown; optionlist] else []).

(** One pass of the loop body: what [resolveFieldName] returned (when the
    pass reached it), the [targetName] given to [used.add] and
    [applyValueToField] (when it reached them), the set [used] after the
    pass, and its effect. *)
Record Pass := {
  candidates : list string;
  resolvedName : option string;
  targetName : option string;
  used : gset string;
  effect : option Effect;
}.

Section loop.
Variable pdfDoc : PdfLib.PDFDocument.
Variable availableFieldNames : list string.
Variable fieldKinds : gmap string PdfFieldKind.
Variable values : list (string * Types.Value).

Definition pass (used : gset string) (field : Proposal) : Pass :=
  if negb (JS.truthy (Some (name field))) then       (* if (!field.name) continue *)
    {| candidates := []; resolvedName := None; targetName := None;
       used := used; effect := None |}
  else
  let desiredKinds := desiredKindsOf (type field) in
  let candidates := filter (fun n => n ∉ used) availableFieldNames in
  let resolvedName :=
    resolveFieldName (name field) candidates fieldKinds desiredKinds in
  match valueOf values (name field) with
  | None =>                                           (* value === undefined: continue *)
      {| candidates := candidates; resolvedName := resolvedName;
         targetName := None; used := used; effect := None |}
  | Some value =>
      let targetName :=
        if negb (JS.truthy resolvedName) && negb (length desiredKinds =? 0)%nat
        then find (fun name =>
                     negb (bool_decide (name ∈ used)) &&
                     bool_decide (kindOf fieldKinds name ∈ desiredKinds))
                  availableFieldNames
        else resolvedName in
      match targetName with
      | Some (String _ _ as targetName) =>
          {| candidates := candidates; resolvedName := resolvedName;
             targetName := Some targetName;
             used := used ∪ {[ targetName ]};
             effect := Some (applyValueToField targetName value) |}
      | _ =>                                          (* if (!targetName) ... continue *)
          {| candidates := candidates; resolvedName := resolvedName;
             targetName := None; used := used;
             effect :=
               Some (match bbox field with
                     | Some _ =>
                         drawValueAtBBox_ field value
                           (drawValueAtBBox pdfDoc field value)
                     | None => console_warn (name field)
                     end) |}
      end
  end.

(** [for (const field of fieldsToFill)], [used] threaded through: the
    passes of a run that no exception ends ([getsPast] below). *)
Fixpoint loop (used0 : gset string) (fieldsToFill : list Proposal) : list Pass :=
  match fieldsToFill with
  | [] => []
  | field :: rest =>
      let p := pass used0 field in
      p :: loop (used p) rest
  end.

End loop.

(** *** [POST] *)

Inductive Response :=
| Saved (passes : list Pass)                 (* 200, the document after the passes *)
| ErrorResponse (error : string) (status : nat).

Definition nativeFormError : string :=
  "This PDF already has fillable fields. Please fill it directly in your PDF reader. This app focuses on flat/image PDFs.".

(** Whether the loop gets past a pass: the [page.drawText] of the pass may
    throw (on a character that the font cannot encode, for one), which
    ends the loop in the [catch] of [POST].  [drawText] says whether the
    call returns. *)
Definition getsPast (drawText : DrawText -> bool) (p : Pass) : bool :=
  match effect p with
  | Some (drawValueAtBBox_ _ _ (Some call)) => drawText call
  | _ => true
  end.

Definition fieldKindsOf (form : list PdfLib.PDFField)
    (availableFieldNames : list string) : gmap string PdfFieldKind :=
  foldl (fun m name => <[name := detectFieldKind form name]> m) ∅
        availableFieldNames.

Definition fieldsToFill (payload : Types.FillPayload)
    (values : list (string * Types.Value)) : list Proposal :=
  match Types.fields payload with
  | Some ((_ :: _) as fields) => ofDetectedField <$> fields
  | _ => (fun kv => ofName (fst kv)) <$> values
  end.

(** [request] is the body [request.json()] gives ([None]: it throws);
    [PDFDocument_load] is [PDFDocument.load] on the decoded bytes
    ([None]: it throws); [drawText] and [save] say whether
    [page.drawText] and, on the document after the passes, [pdfDoc.save]
    return ([false]: they throw). *)
Definition POST (PDFDocument_load : string -> option PdfLib.PDFDocument)
    (drawText : DrawText -> bool) (save : list Pass -> bool)
    (request : option Types.FillPayload) : Response :=
  match request with
  | None => ErrorResponse "Invalid JSON" 400
  | Some payload =>
      match Types.pdfBase64 payload, Types.values payload with
      | String _ _ as pdfBase64, Some values =>
          match PDFDocument_load pdfBase64 with
          | None => ErrorResponse "Failed to fill PDF" 500
          | Some pdfDoc =>
              let form := PdfLib.getFields pdfDoc in
              if (0 <? length form)%nat then ErrorResponse nativeFormError 400 else
              let availableFieldNames := PdfLib.getName <$> form in
              let fieldKinds := fieldKindsOf form availableFieldNames in
              let passes :=
                loop pdfDoc availableFieldNames fieldKinds values ∅
                     (fieldsToFill payload values) in
              if forallb (getsPast drawText) passes && save passes
              then Saved passes
              else ErrorResponse "Failed to fill PDF" 500       (* catch (error) *)
          end
      | _, _ => ErrorResponse "Missing pdfBase64 or values" 400
      end
  end.

End route.
End Fill.

(** ** The reference algorithms, from the words of the specification *)

Module Spec.
Section resolver.
Context `{!JS.Builtins}.

(** Section 4.1: lower-case, then remove every character outside [a-z0-9]. *)
Definition normalize (s : string) : string :=
  JS.remove_non_alnum (JS.toLowerCase s).

(** One name contains another iff the other's normalized form is a
    substring of its own. *)
Definition containsName (candidate requested : string) : bool :=
  JS.includes (normalize candidate) (normalize requested).

(** Strictly ordered, first success wins. *)
Fixpoint firstSuccess (tiers : list (option string)) : option string :=
  match tiers with
  | [] => None
  | Some r :: _ => Some r
  | None :: rest => firstSuccess rest
  end.

(** Section 4.3, tier 4. *)
Definition containment (requested : string) (available : list string)
    (kindMap : gmap string Fill.PdfFieldKind)
    (preferredKinds : list Fill.PdfFieldKind) : option string :=
  match filter (fun c => containsName c requested = true) available with
  | [] => None
  | [c] => Some c
  | qualifying =>
      match preferredKinds with
      | [] => None
      | _ => find (fun c => bool_decide (Fill.kindOf kindMap c ∈ preferredKinds))
                  qualifying
      end
  end.

(** Section 4.3: the four tiers, each taking the first candidate that
    qualifies. *)
Definition resolve (requested : string) (available : list string)
    (kindMap : gmap string Fill.PdfFieldKind)
    (preferredKinds : list Fill.PdfFieldKind) : option string :=
  firstSuccess
    [ find (fun c => String.eqb c requested) available;
      find (fun c => String.eqb (JS.toLowerCase c) (JS.toLowerCase requested))
           available;
      find (fun c => String.eqb (normalize c) (normalize requested)) available;
      containment requested available kindMap preferredKinds ].

End resolver.

(** Section 4.5, step 1 (page selection): [page] is zero-based; out of
    range as such with [page - 1] in range, it is taken as one-based; the
    final index is clamped into [[0, pageCount - 1]]. *)
Definition inRange (pageCount index : Z) : bool :=
  (0 <=? index)%Z && (index <? pageCount)%Z.

Definition pageSelection (pageCount page : Z) : Z :=
  let index :=
    if inRange pageCount page then page
    else if inRange pageCount (page - 1) then (page - 1)%Z
    else page in
  Z.max 0 (Z.min (pageCount - 1) index).

End Spec.

(** ** Notions used in the statements *)

Section statements.
Context `{!JS.Builtins}.

(** [toLowerCase] leaves a string of lower-case letters and digits as it is. *)
Definition lowerCaseFixesAlnum : Prop :=
  forall s, JS.all_lower_alnum s = true -> JS.toLowerCase s = s.

(** No structured field carries the empty name. *)
Definition nonEmptyNames (available : list string) : Prop :=
  Forall (fun n => n <> "") available.

(** The available names whose normalized form contains the normalized
    request: the candidates of the containment tier. *)
Definition containing (requested : string) (available : list string)
  : list string :=
  filter (fun name =>
            JS.includes (Fill.normalize name) (Fill.normalize requested) = true)
         available.

(** The first three tiers of both resolvers: a name equal to the request,
    equal but for the letter case, equal in normalized form; the first
    tier that finds a name gives it. *)
Definition earlierTiers (requested : string) (available : list string)
  : option string :=
  Spec.firstSuccess
    [ find (fun name => String.eqb name requested) available;
      find (fun name =>
              String.eqb (JS.toLowerCase name) (JS.toLowerCase requested))
           available;
      find (fun name =>
              String.eqb (Fill.normalize name) (Fill.normalize requested))
           available ].

(** The type-aware fallback of a pass. *)
Definition fallbackTarget (availableFieldNames : list string)
    (fieldKinds : gmap string Fill.PdfFieldKind)
    (used : gset string) (field : Fill.Proposal) : option string :=
  find (fun name =>
          negb (bool_decide (name ∈ used)) &&
          bool_decide (Fill.kindOf fieldKinds name
                         ∈ Fill.desiredKindsOf (Fill.type field)))
       availableFieldNames.

(** What a pass of the fill loop does on a document without structured
    fields: nothing is a candidate, nothing is resolved or reserved, and a
    value that was supplied is drawn at the bounding box of the proposal or,
    without one, skipped with a warning. *)
Definition overlayPass (pdfDoc : PdfLib.PDFDocument)
    (values : list (string * Types.Value)) (field : Fill.Proposal) : Fill.Pass :=
  {| Fill.candidates := [];
     Fill.resolvedName := None;
     Fill.targetName := None;
     Fill.used := ∅;
     Fill.effect :=
       if JS.truthy (Some (Fill.name field)) then
         match Fill.valueOf values (Fill.name field), Fill.bbox field with
         | Some value, Some _ =>
             Some (Fill.drawValueAtBBox_ field value
                     (Fill.drawValueAtBBox pdfDoc field value))
         | Some value, None => Some (Fill.console_warn (Fill.name field))
         | None, _ => None
         end
       else None |}.

(** Whether a pass takes care of the value under a key: it calls
    [drawValueAtBBox] for a proposal of that name, or warns about it. *)
Definition handles (key : string) (p : Fill.Pass) : bool :=
  match Fill.effect p with
  | Some (Fill.drawValueAtBBox_ field _ _) => String.eqb (Fill.name field) key
  | Some (Fill.console_warn requested) => String.eqb requested key
  | _ => false
  end.

End statements.

(** ** Example data *)

(** A well-formed answer of [n] entries. *)
Definition entry (i : nat) : string :=
  let n := Reference.Number_toString (inject_Z (Z.of_nat i)) in
  "{" ++ Reference.member "name" (Reference.quoted ("field_" ++ n)) ++ ", "
      ++ Reference.member "label" (Reference.quoted ("Field " ++ n)) ++ "}".

Definition answer (n : nat) : string :=
  "{" ++ Reference.member "title" (Reference.quoted "Form") ++ ", "
      ++ Reference.member "fields"
           ("[" ++ String.concat ", " (entry <$> seq 0 n) ++ "]") ++ "}".

Definition inventory : list string := ["a"; "b"; "c"].

Definition inventoryKinds : gmap string Fill.PdfFieldKind :=
  {[ "a" := Fill.text; "b" := Fill.checkbox; "c" := Fill.text ]}.

Definition blankPage : PdfLib.PDFDocument :=
  {| PdfLib.getFields := [];
     PdfLib.getPages := [ {| PdfLib.getWidth := 612; PdfLib.getHeight := 792 |} ] |}.

Definition proposals : list Fill.Proposal :=
  [ Fill.ofName "a";
    {| Fill.name := "agree"; Fill.type := Some Types.checkbox; Fill.bbox := None |};
    Fill.ofName "A" ].

Definition answers : list (string * Types.Value) :=
  [ ("a", Types.VString "1"); ("agree", Types.VBoolean true);
    ("A", Types.VString "2") ].

Definition nativeForm : PdfLib.PDFDocument :=
  {| PdfLib.getFields :=
       [ {| PdfLib.getName := "signature_date";
            PdfLib.fieldClass := PdfLib.PDFTextField;
            PdfLib.getOptions := None |} ];
     PdfLib.getPages := [ {| PdfLib.getWidth := 612; PdfLib.getHeight := 792 |} ] |}.

(** The end-to-end scenario of section 8. *)
Definition signatureDate : Types.DetectedField :=
  {| Types.name := "signature_date"; Types.label := "Date";
     Types.type := Types.date; Types.options := None; Types.placeholder := None;
     Types.bbox := Some {| Types.page := 0;
                           Types.x := JS.double 0.6; Types.y := JS.double 0.9;
                           Types.width := Some (JS.double 0.2);
                           Types.height := Some (JS.double 0.03) |};
     Types.fontScale := None |}.

Definition fillRequest : Types.FillPayload :=
  {| Types.pdfBase64 := "JVBERi0=";
     Types.values := Some [("signature_date", Types.VString "2024-01-01")];
     Types.fields := Some [signatureDate] |}.

(** The same request with one more value, for which it names no field. *)
Definition fillRequestAndPhone : Types.FillPayload :=
  {| Types.pdfBase64 := "JVBERi0=";
     Types.values := Some [("signature_date", Types.VString "2024-01-01");
                           ("phone", Types.VString "555")];
     Types.fields := Some [signatureDate] |}.

(** Boxes on a page of 612 by 792 units. *)
Definition halfPage : Types.FieldBBox :=
  {| Types.page := 0; Types.x := 0.75; Types.y := 0.75;
     Types.width := Some 0.5%Q; Types.height := Some 0.5%Q |}.

Definition widerThanPage : Types.FieldBBox :=
  {| Types.page := 0; Types.x := 10; Types.y := 700;
     Types.width := Some 700%Q; Types.height := Some 200%Q |}.

Definition inPage : Types.FieldBBox :=
  {| Types.page := 0; Types.x := 500; Types.y := 300;
     Types.width := Some 200%Q; Types.height := Some 20%Q |}.

(** A box on a page of the width of A4, 841.89 units across when it lies
    on its side. *)
Definition a4Width : Q := JS.double 841.89.

Definition nearEdge : Types.FieldBBox :=
  {| Types.page := 0; Types.x := 700; Types.y := 100;
     Types.width := Some (JS.double 159.43); Types.height := Some 20%Q |}.

Definition secondPage : Types.FieldBBox :=
  {| Types.page := 2; Types.x := 0; Types.y := 0;
     Types.width := None; Types.height := None |}.

(** ** The value applier of the fill route *)

Module Apply.

(** What the first field of a name holds: the form of [PdfLib] gives the
    fields and their classes, a map from names gives their contents. *)
Inductive Content :=
| Text (text : string)             (* after [setText] *)
| Checked (on : bool)              (* after [check] or [uncheck] *)
| Selected (option : string).      (* after [select] *)

Section applier.
Context `{!JS.Builtins}.

(** Whether the library accepts the call on the field ([false]: it throws,
    and the field is left as it was): [setText] of a text and [select] of
    an option. *)
Variable setText : PdfLib.PDFField -> string -> bool.
Variable select : PdfLib.PDFField -> string -> bool.

Definition normalized (value : Types.Value) : string :=
  match value with
  | Types.VBoolean true => "Yes"
  | Types.VBoolean false => "Off"
  | Types.VString s => s
  end.

(** The branch of the check box: [check()] or [uncheck()]. *)
Definition checks (value : Types.Value) : bool :=
  match value with
  | Types.VBoolean b => b
  | Types.VString _ => String.eqb (JS.toLowerCase (normalized value)) "true"
  end.

(** The contents after the call, and the argument of [console.warn] when
    the last [catch] is reached. *)
Definition applyValueToField (form : list PdfLib.PDFField)
    (state : gmap string Content) (fieldName : string) (value : Types.Value)
  : gmap string Content * option string :=
  let text :=
    textField ← PdfLib.getTextField form fieldName;
    if setText textField (Fill.String_ value)
    then Some (<[fieldName := Text (Fill.String_ value)]> state) else None in
  match text with Some state' => (state', None) | None =>
  let checkbox :=
    _ ← PdfLib.getCheckBox form fieldName;
    Some (<[fieldName := Checked (checks value)]> state) in
  match checkbox with Some state' => (state', None) | None =>
  let radio :=
    radio ← PdfLib.getRadioGroup form fieldName;
    if select radio (Fill.String_ value)
    then Some (<[fieldName := Selected (Fill.String_ value)]> state) else None in
  match radio with Some state' => (state', None) | None =>
  let dropdown :=
    dropdown ← PdfLib.getDropdown form fieldName;
    if select dropdown (Fill.String_ value)
    then Some (<[fieldName := Selected (Fill.String_ value)]> state) else None in
  match dropdown with Some state' => (state', None) | None =>
  let list :=
    list ← PdfLib.getOptionList form fieldName;
    if select list (Fill.String_ value)
    then Some (<[fieldName := Selected (Fill.String_ value)]> state) else None in
  match list with
  | Some state' => (state', None)
  | None => (state, Some fieldName)          (* swallow if field is unknown *)
  end end end end end.

(** The contents after the passes of the fill loop: each pass that ends
    in [await applyValueToField(form, targetName, value)] applies it. *)
Definition applyPass (form : list PdfLib.PDFField) (state : gmap string Content)
    (p : Fill.Pass) : gmap string Content :=
  match Fill.effect p with
  | Some (Fill.applyValueToField targetName value) =>
      fst (applyValueToField form state targetName value)
  | _ => state
  end.

Definition applyPasses (form : list PdfLib.PDFField) (state : gmap string Content)
    (passes : list Fill.Pass) : gmap string Content :=
  foldl (applyPass form) state passes.

End applier.
End Apply.

(** ** The page: what it computes for the requests ([src/app/page.tsx]) *)

Module Page.

Record Adjustment := { dx : Q; dy : Q; fontScale : Q }.

Inductive Direction := up | down | left | right.

(** The names of the members of [Object.prototype]: the properties that
    an object literal has without having been given them. *)
Definition inherited : list string := fst <$> JS.Object_prototype.

(** [prev[fieldName] || { dx: 0, dy: 0, fontScale: 1 }]: the property of
    the object of its own, or the default for a name it has none of.
    [None]: the name is that of a member of [Object.prototype] which the
    object does not shadow; what is read is truthy and no adjustment. *)
Definition current (prev : gmap string Adjustment) (fieldName : string)
  : option Adjustment :=
  match prev !! fieldName with
  | Some adj => Some adj
  | None =>
      if bool_decide (fieldName ∈ inherited) then None
      else Some {| dx := 0; dy := 0; fontScale := 1 |}
  end.

(** The updater that [nudgeField] gives to [setAdjustments]; [delta] is
    the double nearest to [0.005]. *)
Definition nudgeField (fieldName : string) (dir : Direction)
    (prev : gmap string Adjustment) : option (gmap string Adjustment) :=
  current ← current prev fieldName;
  let delta := JS.double 0.005 in
  let next :=
    match dir with
    | up => {| dx := dx current; dy := JS.sub (dy current) delta;
               fontScale := fontScale current |}
    | down => {| dx := dx current; dy := JS.add (dy current) delta;
                 fontScale := fontScale current |}
    | left => {| dx := JS.sub (dx current) delta; dy := dy current;
                 fontScale := fontScale current |}
    | right => {| dx := JS.add (dx current) delta; dy := dy current;
                  fontScale := fontScale current |}
    end in
  Some (<[fieldName := next]> prev).

(** The updater that [scaleFieldFont] gives to [setAdjustments]. *)
Definition scaleFieldFont (fieldName : string) (delta : Q)
    (prev : gmap string Adjustment) : option (gmap string Adjustment) :=
  current ← current prev fieldName;
  let nextScale := Qmin 2 (Qmax 0.5 (JS.add (fontScale current) delta)) in
  Some (<[fieldName := {| dx := dx current; dy := dy current;
                          fontScale := nextScale |}]> prev).

(** What the callback of [fields.map] in [adjustedFields] returns: a
    field whose box holds numbers, or, when [adjustments[field.name]] is a
    member of [Object.prototype] and the field has a box, the field with
    [x] and [y] of its box [NaN] (the sums with the [dx] and [dy] that the
    member does not have) and [fontScale] undefined. *)
Inductive Adjusted :=
| Numbers (field : Types.DetectedField)
| NaNs (field : Types.DetectedField).

Definition adjustField (adjustments : gmap string Adjustment)
    (field : Types.DetectedField) : Adjusted :=
  match Types.bbox field with
  | None => Numbers field                           (* !field.bbox *)
  | Some bbox =>
      match adjustments !! Types.name field with
      | Some adj =>
          Numbers
            {| Types.name := Types.name field;
               Types.label := Types.label field;
               Types.type := Types.type field;
               Types.options := Types.options field;
               Types.placeholder := Types.placeholder field;
               Types.bbox :=
                 Some {| Types.page := Types.page bbox;
                         Types.x := JS.add (Types.x bbox) (dx adj);
                         Types.y := JS.add (Types.y bbox) (dy adj);
                         Types.width := Types.width bbox;
                         Types.height := Types.height bbox |};
               Types.fontScale := Some (fontScale adj) |}
      | None =>
          if bool_decide (Types.name field ∈ inherited)
          then NaNs {| Types.name := Types.name field;
                       Types.label := Types.label field;
                       Types.type := Types.type field;
                       Types.options := Types.options field;
                       Types.placeholder := Types.placeholder field;
                       Types.bbox := Some bbox;
                       Types.fontScale := None |}
          else Numbers field                        (* !adj *)
      end
  end.

Definition adjustedFields (fields : list Types.DetectedField)
    (adjustments : gmap string Adjustment) : list Adjusted :=
  adjustField adjustments <$> fields.

(** A field as the fill route reads it in the body that [JSON.stringify]
    made: a [NaN] is written [null], and wherever [drawValueAtBBox] uses
    the [x] or the [y] of a box ([<= 1], [Math.min]) a [null] is the
    number 0. *)
Definition sent (field : Adjusted) : Types.DetectedField :=
  match field with
  | Numbers field => field
  | NaNs field =>
      {| Types.name := Types.name field;
         Types.label := Types.label field;
         Types.type := Types.type field;
         Types.options := Types.options field;
         Types.placeholder := Types.placeholder field;
         Types.bbox :=
           (fun bbox => {| Types.page := Types.page bbox;
                           Types.x := 0; Types.y := 0;
                           Types.width := Types.width bbox;
                           Types.height := Types.height bbox |})
           <$> Types.bbox field;
         Types.fontScale := Types.fontScale field |}
  end.

(** *** The object [values]: its own properties, in the order in which
    [Object.keys] and [JSON.stringify] enumerate them *)

Fixpoint numeral (s : string) (acc : N) : option N :=
  match s with
  | EmptyString => Some acc
  | String c r =>
      let n := nat_of_ascii c in
      if ((48 <=? n) && (n <=? 57))%nat
      then numeral r (10 * acc + N.of_nat (n - 48))%N
      else None
  end.

(** The array index that a key is: the canonical numeral of an integer
    below [2^32 - 1].  Such keys are enumerated first, in ascending order. *)
Definition arrayIndex (key : string) : option N :=
  match key with
  | EmptyString => None
  | String c r =>
      if Ascii.eqb c "0" && negb (String.eqb r "") then None
      else n ← numeral key 0; if (n <? 2 ^ 32 - 1)%N then Some n else None
  end.

(** Whether a new key [key] is enumerated before the key [k]. *)
Definition precedes (key k : string) : bool :=
  match arrayIndex key, arrayIndex k with
  | Some i, Some j => (i <? j)%N
  | Some _, None => true
  | None, _ => false
  end.

Definition has (key : string) (obj : list (string * Types.Value)) : bool :=
  existsb (fun kv => String.eqb (fst kv) key) obj.

Fixpoint insertNew (key : string) (value : Types.Value)
    (obj : list (string * Types.Value)) : list (string * Types.Value) :=
  match obj with
  | [] => [(key, value)]
  | (k, v) :: rest =>
      if precedes key k then (key, value) :: obj
      else (k, v) :: insertNew key value rest
  end.

(** Defining the property [key]: the value of an existing key is replaced
    where it stands, a new key takes its place in the enumeration. *)
Definition define (key : string) (value : Types.Value)
    (obj : list (string * Types.Value)) : list (string * Types.Value) :=
  if has key obj
  then (fun kv => if String.eqb (fst kv) key then (key, value) else kv) <$> obj
  else insertNew key value obj.

(** [obj[key] = value] for a string or a boolean: the setter of
    [__proto__] ignores it; any other key is defined. *)
Definition assign (key : string) (value : Types.Value)
    (obj : list (string * Types.Value)) : list (string * Types.Value) :=
  if String.eqb key "__proto__" then obj else define key value obj.

(** [field.type === "checkbox" ? false : field.options?.[0] ?? ""] *)
Definition initialValue (field : Types.DetectedField) : Types.Value :=
  if bool_decide (Types.type field = Types.checkbox) then Types.VBoolean false
  else Types.VString (default "" (Types.options field ≫= head)).

(** The [initialValues] that [detectFields] builds and gives to [setValues]. *)
Definition initialValues (fields : list Types.DetectedField)
  : list (string * Types.Value) :=
  foldl (fun values field => assign (Types.name field) (initialValue field) values)
        [] fields.


(** The body of the requests to the fill route, of the preview and of the
    download, as the route reads it:
    [JSON.stringify({ pdfBase64, values, fields: adjustedFields })]. *)
Definition fillBody (pdfBase64 : string) (values : list (string * Types.Value))
    (fields : list Types.DetectedField) (adjustments : gmap string Adjustment)
  : Types.FillPayload :=
  {| Types.pdfBase64 := pdfBase64;
     Types.values := Some values;
     Types.fields := Some (sent <$> adjustedFields fields adjustments) |}.

End Page.

(** ** Further notions used in the statements *)

(** The kind that the probes of [detectFieldKind] find for a field of a
    class. *)
Definition kindOfClass (c : PdfLib.FieldClass) : Fill.PdfFieldKind :=
  match c with
  | PdfLib.PDFTextField => Fill.text
  | PdfLib.PDFCheckBox => Fill.checkbox
  | PdfLib.PDFRadioGroup => Fill.radio
  | PdfLib.PDFDropdown => Fill.dropdown
  | PdfLib.PDFOptionList => Fill.optionlist
  | PdfLib.PDFButton | PdfLib.PDFSignature => Fill.unknown
  end.

(** The kinds of the detect route as those of the fill route. *)
Definition fillKind (k : Detect.FieldKind) : Fill.PdfFieldKind :=
  match k with
  | Detect.text => Fill.text
  | Detect.checkbox => Fill.checkbox
  | Detect.radio => Fill.radio
  | Detect.dropdown => Fill.dropdown
  | Detect.optionlist => Fill.optionlist
  | Detect.unknown => Fill.unknown
  end.

(** The contents that a call which the library accepts leaves in a field
    of a class. *)
Definition written `{!JS.Builtins} (f : PdfLib.PDFField) (value : Types.Value)
  : option Apply.Content :=
  match PdfLib.fieldClass f with
  | PdfLib.PDFTextField => Some (Apply.Text (Fill.String_ value))
  | PdfLib.PDFCheckBox => Some (Apply.Checked (Apply.checks value))
  | PdfLib.PDFRadioGroup | PdfLib.PDFDropdown | PdfLib.PDFOptionList =>
      Some (Apply.Selected (Fill.String_ value))
  | PdfLib.PDFButton | PdfLib.PDFSignature => None
  end.

(** No back quote in a text. *)
Fixpoint noBackquote (s : string) : bool :=
  match s with
  | EmptyString => true
  | String c r => negb (Ascii.eqb c (ascii_of_nat 96)) && noBackquote r
  end.

(** No code fence in a text. *)
Fixpoint noFence (s : string) : bool :=
  match s with
  | EmptyString => true
  | String _ r => negb (String.prefix JS.fence s) && noFence r
  end.

(** A form of one text field and one check box, with their contents. *)
Definition smallForm : list PdfLib.PDFField :=
  [ {| PdfLib.getName := "full_name"; PdfLib.fieldClass := PdfLib.PDFTextField;
       PdfLib.getOptions := None |};
    {| PdfLib.getName := "agree"; PdfLib.fieldClass := PdfLib.PDFCheckBox;
       PdfLib.getOptions := None |};
    {| PdfLib.getName := "colour"; PdfLib.fieldClass := PdfLib.PDFRadioGroup;
       PdfLib.getOptions := Some ["red"; "green"] |} ].

(** A library that accepts every text, and the options a field offers. *)
Definition anyText (f : PdfLib.PDFField) (text : string) : bool := true.

Definition offered (f : PdfLib.PDFField) (option : string) : bool :=
  bool_decide (option ∈ default [] (PdfLib.getOptions f)).

(** The field in what [adjustedFields] returns for it. *)
Definition adjustedField (adjusted : Page.Adjusted) : Types.DetectedField :=
  match adjusted with
  | Page.Numbers field | Page.NaNs field => field
  end.

(** What [adjustedFields] makes of a field: everything that the fill
    route reads besides the box as it was, and the box, if it has one, on
    its page and with its size, moved by the offsets of the adjustment of
    its name; without an adjustment the field is as it was, unless its
    name is that of a member of [Object.prototype]: then the [x] and the
    [y] of its box are [NaN]. *)
Definition movedBy (adjustments : gmap string Page.Adjustment)
    (field : Types.DetectedField) (adjusted : Page.Adjusted) : Prop :=
  let after := adjustedField adjusted in
  Types.name after = Types.name field /\
  Types.label after = Types.label field /\
  Types.type after = Types.type field /\
  Types.options after = Types.options field /\
  Types.placeholder after = Types.placeholder field /\
  match Types.bbox field with
  | None => adjusted = Page.Numbers field
  | Some bbox =>
      exists moved,
        Types.bbox after = Some moved /\
        Types.page moved = Types.page bbox /\
        Types.width moved = Types.width bbox /\
        Types.height moved = Types.height bbox /\
        match adjustments !! Types.name field with
        | Some adj =>
            adjusted = Page.Numbers after /\
            Types.x moved = JS.add (Types.x bbox) (Page.dx adj) /\
            Types.y moved = JS.add (Types.y bbox) (Page.dy adj)
        | None =>
            if bool_decide (Types.name field ∈ Page.inherited)
            then adjusted = Page.NaNs after
            else adjusted = Page.Numbers field
        end
  end.

(** The numbers of the box of a field, if it has one, are doubles. *)
Definition boxOfDoubles (field : Types.DetectedField) : Prop :=
  forall bbox,
    Types.bbox field = Some bbox ->
    JS.isDouble (Types.x bbox) /\ JS.isDouble (Types.y bbox).



(** An answer of the recognizer in a code fence, with text around it. *)
Definition fencedAnswer : string :=
  "Here is the form:" ++ JS.bytes [10] ++ JS.fence ++ "JSON" ++ JS.bytes [10]
  ++ answer 2 ++ JS.bytes [10] ++ JS.fence ++ JS.bytes [10] ++ "Done.".

(** [{"title": "T", "fields": [{"name": "a", "label": "A"}, null]}] *)
Definition nullEntry : string :=
  "{" ++ Reference.member "title" (Reference.quoted "T") ++ ", "
      ++ Reference.member "fields"
           ("[{" ++ Reference.member "name" (Reference.quoted "a") ++ ", "
                 ++ Reference.member "label" (Reference.quoted "A") ++ "}, null]")
      ++ "}".

(** Two detected fields of one name, and a check box without a box. *)
Definition colour (options : list string) : Types.DetectedField :=
  {| Types.name := "colour"; Types.label := "Colour";
     Types.type := Types.select; Types.options := Some options;
     Types.placeholder := None; Types.bbox := None; Types.fontScale := None |}.

Definition detected : list Types.DetectedField :=
  [ colour ["red"; "green"]; signatureDate; colour ["blue"] ].

Definition nudged : gmap string Page.Adjustment :=
  {[ "signature_date" := {| Page.dx := JS.double 0.005; Page.dy := 0;
                            Page.fontScale := 1 |} ]}.

(** A detected field with a box, of the name of a member of
    [Object.prototype]. *)
Definition toStringField : Types.DetectedField :=
  {| Types.name := "toString"; Types.label := "To"; Types.type := Types.text;
     Types.options := None; Types.placeholder := None;
     Types.bbox := Some {| Types.page := 0; Types.x := JS.double 0.1;
                           Types.y := JS.double 0.2;
                           Types.width := None; Types.height := None |};
     Types.fontScale := None |}.

(** * Properties *)

(** ** Built-ins *)

Lemma ascii_lower_alnum c : JS.is_lower_alnum c = true -> JS.ascii_lower c = c.
Proof.
  destruct c as [[] [] [] [] [] [] [] []]; vm_compute; congruence.
Qed.

Lemma ascii_toLowerCase_alnum s :
  JS.all_lower_alnum s = true -> Reference.toLowerCase s = s.
Proof.
  induction s as [|c r IH]; simpl; [reflexivity|].
  intros [Hc Hr]%andb_prop.
  rewrite (ascii_lower_alnum c Hc), (IH Hr). reflexivity.
Qed.

Lemma remove_non_alnum_all s : JS.all_lower_alnum (JS.remove_non_alnum s) = true.
Proof.
  induction s as [|c r IH]; simpl; [reflexivity|].
  destruct (JS.is_lower_alnum c) eqn:Hc; simpl; [rewrite Hc|]; exact IH.
Qed.

Lemma remove_non_alnum_fixes s :
  JS.all_lower_alnum s = true -> JS.remove_non_alnum s = s.
Proof.
  induction s as [|c r IH]; simpl; [reflexivity|].
  intros [Hc Hr]%andb_prop. rewrite Hc, (IH Hr). reflexivity.
Qed.

(** The fuel of [trimStart] is enough: what it returns starts with no
    white space. *)
Lemma dropPrefix_length p s r :
  JS.dropPrefix p s = Some r ->
  (String.length r + String.length p = String.length s)%nat.
Proof.
  revert s. induction p as [|a p IH]; intros [|b s]; simpl; try discriminate.
  - intros [= <-]. reflexivity.
  - intros [= <-]. simpl. lia.
  - destruct (Ascii.eqb a b); [|discriminate].
    intros Hd. apply IH in Hd. lia.
Qed.

Lemma dropOne_shorter pats s r :
  JS.dropOne pats s = Some r -> (String.length r < String.length s)%nat.
Proof.
  induction pats as [|p pats IH]; simpl; [discriminate|].
  destruct p as [|a p]; [exact IH|].
  destruct (JS.dropPrefix (String a p) s) as [r'|] eqn:Hd; [|exact IH].
  intros [= <-]. apply dropPrefix_length in Hd. simpl in Hd. lia.
Qed.

Lemma dropAll_done pats fuel s :
  (String.length s <= fuel)%nat ->
  JS.dropOne pats (JS.dropAll fuel pats s) = None.
Proof.
  revert s. induction fuel as [|fuel IH]; intros s Hlen; simpl.
  - destruct (JS.dropOne pats s) as [r|] eqn:Hd; [|reflexivity].
    apply dropOne_shorter in Hd. lia.
  - destruct (JS.dropOne pats s) as [r|] eqn:Hd; [|exact Hd].
    apply IH. apply dropOne_shorter in Hd. lia.
Qed.

Lemma trimStart_done s : JS.dropOne JS.whiteSpace (JS.trimStart s) = None.
Proof. by apply dropAll_done. Qed.

(** ** Numbers: rounding to the nearest double is monotone *)

Section numbers.
Local Open Scope Q_scope.

Lemma nearestEven_bounds (q : Q) :
  inject_Z (JS.nearestEven q) - (1 # 2) <= q <= inject_Z (JS.nearestEven q) + (1 # 2).
Proof.
  unfold JS.nearestEven. cbn zeta.
  pose proof (Qfloor_le q) as Hlo. pose proof (Qlt_floor q) as Hhi.
  rewrite inject_Z_plus in Hhi. change (inject_Z 1) with 1 in Hhi.
  destruct (Qcompare (q - inject_Z (Qfloor q)) (1 # 2)) eqn:Hc.
  - apply Qeq_alt in Hc.
    destruct (Z.even (Qfloor q)); [|rewrite inject_Z_plus; change (inject_Z 1) with 1];
      split; lra.
  - apply Qlt_alt in Hc. split; lra.
  - apply Qgt_alt in Hc. rewrite inject_Z_plus. change (inject_Z 1) with 1.
    split; lra.
Qed.

Lemma nearestEven_Z (z : Z) : JS.nearestEven (inject_Z z) = z.
Proof.
  unfold JS.nearestEven. cbn zeta. rewrite Qfloor_Z.
  assert (Qcompare (inject_Z z - inject_Z z) (1 # 2) = Lt) as ->; [|reflexivity].
  apply (proj1 (Qlt_alt _ _)). lra.
Qed.

Lemma nearestEven_le (a b : Q) : a <= b -> (JS.nearestEven a <= JS.nearestEven b)%Z.
Proof.
  intros Hab.
  destruct (Z_lt_le_dec (JS.nearestEven b) (JS.nearestEven a)) as [Hlt|]; [|done].
  exfalso.
  pose proof (nearestEven_bounds a) as [Ha1 Ha2].
  pose proof (nearestEven_bounds b) as [Hb1 Hb2].
  assert (inject_Z (JS.nearestEven b) + 1 <= inject_Z (JS.nearestEven a)) as Hz.
  { change 1 with (inject_Z 1). rewrite <- inject_Z_plus, <- Zle_Qle. lia. }
  (* so a and b are the point halfway, and the two roundings are its neighbours *)
  assert (a == inject_Z (JS.nearestEven b) + (1 # 2)) as Ha by lra.
  assert (b == inject_Z (JS.nearestEven b) + (1 # 2)) as Hb by lra.
  assert (inject_Z (JS.nearestEven a) == inject_Z (JS.nearestEven b) + 1) as Hna by lra.
  revert Hlt. unfold JS.nearestEven. cbn zeta.
  assert (Qfloor a = JS.nearestEven b) as Hfa.
  { symmetry. apply Z.le_antisymm.
    - apply Qfloor_resp_le in Hab. 
      assert (Qfloor (inject_Z (JS.nearestEven b) + (1#2)) = JS.nearestEven b) as Hf.
      { apply Z.le_antisymm.
        - assert (Qfloor (inject_Z (JS.nearestEven b) + (1 # 2)) < JS.nearestEven b + 1)%Z; [|lia].
          rewrite Zlt_Qlt, inject_Z_plus. change (inject_Z 1) with 1.
          pose proof (Qfloor_le (inject_Z (JS.nearestEven b) + (1 # 2))). lra.
        - rewrite <- (Qfloor_Z (JS.nearestEven b)) at 1. apply Qfloor_resp_le. lra. }
      rewrite <- Hf. apply Qfloor_resp_le. lra.
    - assert (Qfloor a < JS.nearestEven b + 1)%Z; [|lia].
      rewrite Zlt_Qlt, inject_Z_plus. change (inject_Z 1) with 1.
      pose proof (Qfloor_le a). lra. }
  assert (Qfloor b = JS.nearestEven b) as Hfb.
  { rewrite <- Hfa. apply Qfloor_comp. lra. }
  rewrite Hfa, Hfb.
  assert (Qcompare (a - inject_Z (JS.nearestEven b)) (1 # 2) = Eq) as -> by (apply (proj1 (Qeq_alt _ _)); lra).
  assert (Qcompare (b - inject_Z (JS.nearestEven b)) (1 # 2) = Eq) as -> by (apply (proj1 (Qeq_alt _ _)); lra).
  destruct (Z.even (JS.nearestEven b)); lia.
Qed.

Lemma pow2_pos (e : Z) : 0 < 2 ^ e.
Proof. by apply Qpower_0_lt. Qed.

Lemma pow2_le (n m : Z) : (n <= m)%Z -> 2 ^ n <= 2 ^ m.
Proof. intros Hnm. by apply Qpower_le_compat_l. Qed.

Lemma pow2_plus (n m : Z) : 2 ^ (n + m) == 2 ^ n * 2 ^ m.
Proof. by apply Qpower_plus. Qed.

Lemma pow2_Z (n : Z) : (0 <= n)%Z -> 2 ^ n == inject_Z (2 ^ n).
Proof. intros Hn. by rewrite Zpower_Qpower. Qed.

Lemma pow2_succ (n : Z) : 2 ^ (n + 1) == 2 * 2 ^ n.
Proof. rewrite pow2_plus. change (2 ^ 1) with 2. ring. Qed.

(** The bounds that define [ilog2]. *)
Lemma ilog2_spec (q : Q) : 0 < q -> 2 ^ JS.ilog2 q <= q < 2 ^ (JS.ilog2 q + 1).
Proof.
  intros Hq. unfold JS.ilog2. cbn zeta.
  destruct q as [n d]. cbn [Qnum Qden].
  assert (0 < n)%Z as Hn. { unfold Qlt in Hq. cbn in Hq. lia. }
  set (a := Z.log2 n). set (b := Z.log2 (Z.pos d)).
  assert (0 <= a)%Z as Ha0 by apply Z.log2_nonneg.
  assert (0 <= b)%Z as Hb0 by apply Z.log2_nonneg.
  pose proof (Z.log2_spec n Hn) as [Ha1 Ha2]. fold a in Ha1, Ha2.
  pose proof (Z.log2_spec (Z.pos d) ltac:(lia)) as [Hb1 Hb2]. fold b in Hb1, Hb2.
  rewrite Zle_Qle, <- pow2_Z in Ha1, Hb1 by lia.
  replace (Z.succ a) with (a + 1)%Z in Ha2 by lia.
  replace (Z.succ b) with (b + 1)%Z in Hb2 by lia.
  rewrite Zlt_Qlt, <- pow2_Z, pow2_succ in Ha2, Hb2 by lia.
  assert (n # d == inject_Z n / inject_Z (Z.pos d)) as Hnd by apply Qmake_Qdiv.
  assert (0 < inject_Z (Z.pos d)) as Hd by (rewrite <- (Zlt_Qlt 0); lia).
  assert ((n # d) * inject_Z (Z.pos d) == inject_Z n) as Hmul.
  { rewrite Hnd. field. lra. }
  set (q := n # d) in *. set (N := inject_Z n) in *. set (D := inject_Z (Z.pos d)) in *.
  assert (2 ^ (a - b) * 2 ^ b == 2 ^ a) as Hk.
  { rewrite <- pow2_plus. by replace (a - b + b)%Z with a by lia. }
  pose proof (pow2_pos a) as HA. pose proof (pow2_pos b) as HB.
  pose proof (pow2_pos (a - b)) as HK.
  assert (2 ^ (a - b - 1 + 1) == 2 ^ (a - b)) as Hk1.
  { by replace (a - b - 1 + 1)%Z with (a - b)%Z by lia. }
  pose proof (pow2_succ (a - b)) as Hk2.
  pose proof (pow2_succ (a - b - 1)) as Hk3. rewrite Hk1 in Hk3.
  pose proof (pow2_pos (a - b - 1)) as HK1.
  set (K := 2 ^ (a - b)) in *. set (K1 := 2 ^ (a - b - 1)) in *.
  set (A := 2 ^ a) in *. set (B := 2 ^ b) in *.
  assert (K1 < q) as Hlow.
  { apply (Qmult_lt_r _ _ D Hd). nra. }
  assert (q < 2 * K) as Hhigh.
  { apply (Qmult_lt_r _ _ D Hd).
    assert (K * B <= K * D) by (apply Qmult_le_l; lra).
    setoid_replace (2 * K * D) with (2 * (K * D)) using relation Qeq by ring.
    lra. }
  destruct (Qle_bool K q) eqn:Hle.
  - apply Qle_bool_iff in Hle. rewrite Hk2. fold K. split; lra.
  - assert (~ K <= q) as Hnle.
    { intros H. apply Qle_bool_iff in H. congruence. }
    rewrite Hk1. fold K K1. split; lra.
Qed.

Lemma ilog2_le (a b : Q) : 0 < a -> a <= b -> (JS.ilog2 a <= JS.ilog2 b)%Z.
Proof.
  intros Ha Hab.
  destruct (ilog2_spec a Ha) as [Ha1 _].
  destruct (ilog2_spec b ltac:(lra)) as [_ Hb2].
  destruct (Z_lt_le_dec (JS.ilog2 b) (JS.ilog2 a)) as [Hlt|]; [|done].
  exfalso. pose proof (pow2_le (JS.ilog2 b + 1) (JS.ilog2 a) ltac:(lia)). lra.
Qed.

Lemma pow2_minus (n m : Z) : 2 ^ n / 2 ^ m == 2 ^ (n - m).
Proof. symmetry. by apply Qpower_minus. Qed.

(** A power of two at or above the grid of spacing [2 ^ e] is a point of
    the grid. *)
Lemma grid_pow2 (n e : Z) :
  (e <= n)%Z -> JS.nearestEven (2 ^ n / 2 ^ e) = (2 ^ (n - e))%Z.
Proof.
  intros Hen.
  assert (2 ^ n / 2 ^ e == inject_Z (2 ^ (n - e))) as Heq.
  { rewrite pow2_minus. apply pow2_Z. lia. }
  rewrite <- (nearestEven_Z (2 ^ (n - e))).
  apply Z.le_antisymm; apply nearestEven_le; rewrite Heq; lra.
Qed.

Lemma roundPositive_nonneg (q : Q) : 0 < q -> 0 <= JS.roundPositive q.
Proof.
  intros Hq. unfold JS.roundPositive. cbn zeta.
  set (e := Z.max _ _). pose proof (pow2_pos e) as He.
  apply Qmult_le_0_compat; [|lra].
  change 0 with (inject_Z 0). rewrite <- Zle_Qle.
  rewrite <- (nearestEven_Z 0). apply nearestEven_le.
  change (inject_Z 0) with 0. apply Qle_shift_div_l; [done | lra].
Qed.

Lemma roundPositive_le (a b : Q) :
  0 < a -> a <= b -> JS.roundPositive a <= JS.roundPositive b.
Proof.
  intros Ha Hab. assert (0 < b) as Hb by lra.
  unfold JS.roundPositive. cbn zeta.
  pose proof (ilog2_le a b Ha Hab) as Hl.
  destruct (ilog2_spec a Ha) as [Ha1 Ha2]. destruct (ilog2_spec b Hb) as [Hb1 Hb2].
  set (la := JS.ilog2 a) in *. set (lb := JS.ilog2 b) in *.
  set (ea := Z.max (-1074) (la - 52)). set (eb := Z.max (-1074) (lb - 52)).
  pose proof (pow2_pos ea) as Hea. pose proof (pow2_pos eb) as Heb.
  destruct (Z.eq_dec ea eb) as [Heq|Hne].
  - rewrite Heq. apply Qmult_le_compat_r; [|lra].
    rewrite <- Zle_Qle. apply nearestEven_le.
    apply Qmult_le_compat_r; [done|]. apply Qinv_le_0_compat. lra.
  - assert (ea < eb)%Z as Hlt by lia.
    assert (eb = lb - 52)%Z as Heb52 by lia.
    assert (la < lb)%Z as Hll by lia.
    assert (ea < lb)%Z as Healb by lia.
    (* the power of two between them is on both grids *)
    apply Qle_trans with (2 ^ lb).
    + assert (a <= 2 ^ lb) as HaP.
      { pose proof (pow2_le (la + 1) lb ltac:(lia)). lra. }
      assert (JS.nearestEven (a / 2 ^ ea) <= 2 ^ (lb - ea))%Z as Hn.
      { rewrite <- (grid_pow2 lb ea) by lia. apply nearestEven_le.
        apply Qmult_le_compat_r; [done|]. apply Qinv_le_0_compat. lra. }
      rewrite Zle_Qle, <- pow2_Z in Hn by lia.
      apply Qle_trans with (2 ^ (lb - ea) * 2 ^ ea).
      * apply Qmult_le_compat_r; [done | lra].
      * rewrite <- pow2_plus. replace (lb - ea + ea)%Z with lb by lia. lra.
    + assert (2 ^ 52 <= JS.nearestEven (b / 2 ^ eb))%Z as Hn.
      { replace 52%Z with (lb - eb)%Z at 1 by lia.
        rewrite <- (grid_pow2 lb eb) by lia. apply nearestEven_le.
        apply Qmult_le_compat_r; [done|]. apply Qinv_le_0_compat. lra. }
      rewrite Zle_Qle, <- pow2_Z in Hn by lia.
      apply Qle_trans with (2 ^ 52 * 2 ^ eb).
      * rewrite <- pow2_plus. replace (52 + eb)%Z with lb by lia. lra.
      * apply Qmult_le_compat_r; [done | lra].
Qed.

Lemma Qcompare_0_cases (q : Q) :
  (Qcompare q 0 = Eq /\ q == 0) \/ (Qcompare q 0 = Lt /\ q < 0) \/
  (Qcompare q 0 = Gt /\ 0 < q).
Proof.
  destruct (Qcompare q 0) eqn:Hc.
  - left. split; [done|]. by apply Qeq_alt.
  - right; left. split; [done|]. by apply Qlt_alt.
  - right; right. split; [done|]. by apply Qgt_alt.
Qed.

(** Rounding to the nearest double is monotone. *)
Lemma double_le (a b : Q) : a <= b -> JS.double a <= JS.double b.
Proof.
  intros Hab. unfold JS.double. rewrite !Qred_correct.
  destruct (Qcompare_0_cases a) as [[-> Ha]|[[-> Ha]|[-> Ha]]],
           (Qcompare_0_cases b) as [[-> Hb]|[[-> Hb]|[-> Hb]]];
    try lra.
  - by apply roundPositive_nonneg.
  - pose proof (roundPositive_nonneg (- a)). lra.
  - pose proof (roundPositive_le (- b) (- a)). lra.
  - pose proof (roundPositive_nonneg (- a)). pose proof (roundPositive_nonneg b). lra.
  - by apply roundPositive_le.
Qed.

(** A double is a number that rounding leaves as it is; rounding depends
    on the number alone, not on the fraction that stands for it. *)
Lemma double_Qeq (a b : Q) : a == b -> JS.double a = JS.double b.
Proof.
  intros Hab.
  assert (JS.double a == JS.double b) as Heq.
  { apply Qle_antisym; apply double_le; lra. }
  unfold JS.double in *. rewrite !Qred_correct in Heq. by apply Qred_complete.
Qed.

Lemma double_nonneg (q : Q) : 0 <= q -> 0 <= JS.double q.
Proof. intros Hq. change 0 with (JS.double 0) at 1. by apply double_le. Qed.

Lemma double_le_r (a b : Q) : JS.isDouble b -> a <= b -> JS.double a <= b.
Proof. unfold JS.isDouble. intros Hb Hab. rewrite <- Hb. by apply double_le. Qed.

End numbers.

(** ** The normalizer *)

Section normalizer.
Context `{!JS.Builtins}.

(** C10: normalizing twice is normalizing once, for the normalizer of
    either route (lower-case, then delete every character outside
    [a-z0-9]). *)
Theorem normalize_idempotent (s : string) :
  lowerCaseFixesAlnum ->
  Detect.normalize (Detect.normalize s) = Detect.normalize s /\
  Fill.normalize (Fill.normalize s) = Fill.normalize s.
Proof.
  intros Hlow. unfold Detect.normalize, Fill.normalize.
  pose proof (remove_non_alnum_all (JS.toLowerCase s)) as Hall.
  rewrite (Hlow _ Hall), (remove_non_alnum_fixes _ Hall). split; reflexivity.
Qed.

End normalizer.

Lemma normalize_idempotent_witness :
  @lowerCaseFixesAlnum Reference.builtins /\
  @Detect.normalize Reference.builtins (@Detect.normalize Reference.builtins "Full_Name 2")
    = "fullname2".
Proof.
  split; [exact ascii_toLowerCase_alnum|].
  exact (proj1 (@normalize_idempotent Reference.builtins "Full_Name 2"
                  ascii_toLowerCase_alnum)).
Defined.

(** ** The name resolvers *)

Lemma truthy_Some (n : string) : n <> "" -> JS.truthy (Some n) = true.
Proof. destruct n; [congruence | reflexivity]. Qed.

Lemma find_elem_of {A} (f : A -> bool) (l : list A) (a : A) :
  find f l = Some a -> a ∈ l /\ f a = true.
Proof.
  intros [Hin Hf]%find_some. split; [by apply list_elem_of_In | done].
Qed.

(** On non-empty names, the truthiness test on the result of [find] is the
    test that [find] found something. *)
Lemma if_truthy_find (f : string -> bool) (l : list string) (k : option string) :
  nonEmptyNames l ->
  (if JS.truthy (find f l) then find f l else k)
  = match find f l with Some n => Some n | None => k end.
Proof.
  intros Hne. destruct (find f l) as [n|] eqn:Hfind; [|reflexivity].
  apply find_elem_of in Hfind as [Hin _].
  rewrite truthy_Some; [reflexivity|].
  by apply (proj1 (Forall_forall _ _) Hne).
Qed.

Lemma nonEmptyNames_filter (P : string -> Prop) `{!forall n, Decision (P n)}
    (l : list string) :
  nonEmptyNames l -> nonEmptyNames (filter P l).
Proof.
  unfold nonEmptyNames. rewrite !Forall_forall.
  intros Hne n [_ Hin]%list_elem_of_filter. by apply Hne.
Qed.

Section resolvers.
Context `{!JS.Builtins}.

(** Where no available name is empty, the fill-route resolver computes
    the reference algorithm of the specification. *)
Lemma resolveFieldName_refines_spec requested available kindMap preferredKinds :
  nonEmptyNames available ->
  Fill.resolveFieldName requested available kindMap preferredKinds
  = Spec.resolve requested available kindMap preferredKinds.
Proof.
  intros Hne. unfold Fill.resolveFieldName, Spec.resolve. cbn zeta.
  rewrite !if_truthy_find by done. simpl Spec.firstSuccess.
  destruct (find _ available) as [?|]; [reflexivity|].
  destruct (find _ available) as [?|]; [reflexivity|].
  destruct (find _ available) as [?|]; [reflexivity|].
  unfold Spec.containment, Spec.containsName, Spec.normalize, Fill.normalize.
  pose proof (nonEmptyNames_filter
    (fun name => JS.includes (JS.remove_non_alnum (JS.toLowerCase name))
                             (JS.remove_non_alnum (JS.toLowerCase requested)) = true)
    available Hne) as Hc.
  destruct (filter _ available) as [|c [|c' rest]]; [reflexivity..|].
  cbn [length Nat.eqb Nat.ltb Nat.leb andb negb head].
  destruct preferredKinds as [|k ks]; [reflexivity|].
  cbn [length Nat.eqb negb]. rewrite if_truthy_find by done.
  by destruct (find _ (c :: c' :: rest)).
Qed.

Lemma find_head_filter {A} (f : A -> bool) (l : list A) :
  find f l = head (filter (fun a => f a = true) l).
Proof.
  induction l as [|a l IH]; [reflexivity|].
  cbn [find]. rewrite filter_cons.
  destruct (f a) eqn:Hfa; case_decide; first [reflexivity | congruence].
Qed.

(** C3 (amended): on available names none of which is the empty string
    (the empty list, which is all the route passes, among them) the
    resolver of the fill route returns, for every request, kind map and
    preferred kinds, what the four-tier reference algorithm of the
    specification returns. *)
Theorem fill_resolver_reference requested available kindMap preferredKinds :
  nonEmptyNames available ->
  Fill.resolveFieldName requested available kindMap preferredKinds
  = Spec.resolve requested available kindMap preferredKinds.
Proof. apply resolveFieldName_refines_spec. Qed.

(** C4 (amended): on available names none of which is empty, the detect
    resolver and the fill resolver called with no preferred kinds return
    the same name when one of the first three tiers finds one, and when
    none does and at most one available name contains the normalized
    request: that of the tier, the one name, or none.  When no earlier tier
    finds a name and several names contain the request, the detect
    resolver returns the first of them and the fill resolver none. *)
Theorem detect_fill_resolvers requested available kindMap :
  nonEmptyNames available ->
  match earlierTiers requested available, containing requested available with
  | Some n, _ | None, [n] =>
      Detect.resolveFieldName requested available = Some n /\
      Fill.resolveFieldName requested available kindMap [] = Some n
  | None, [] =>
      Detect.resolveFieldName requested available = None /\
      Fill.resolveFieldName requested available kindMap [] = None
  | None, n :: _ :: _ =>
      Detect.resolveFieldName requested available = Some n /\
      Fill.resolveFieldName requested available kindMap [] = None
  end.
Proof.
  intros Hne.
  unfold Detect.resolveFieldName, Fill.resolveFieldName, earlierTiers, containing.
  unfold Detect.normalize, Fill.normalize. cbn zeta.
  rewrite !if_truthy_find by done. cbn [Spec.firstSuccess].
  destruct (find _ available) as [?|]; [by split|].
  destruct (find _ available) as [?|]; [by split|].
  destruct (find _ available) as [?|]; [by split|].
  rewrite find_head_filter.
  destruct (filter _ available) as [|c [|c' rest]]; by split.
Qed.

End resolvers.

(** C3, as stated, fails at an inventory that holds a field with the empty
    name.  The request "-" has the normalized form of the empty name, so
    tier 3 of the reference algorithm matches it; the code tests the
    result of [find] for truthiness, takes the empty name for a miss, and
    goes on to the containment tier, where it reports no match or picks
    another field by kind. *)
Theorem resolveFieldName_empty_name :
  @Fill.resolveFieldName Reference.builtins "-" [""; "x"] ∅ []
  <> @Spec.resolve Reference.builtins "-" [""; "x"] ∅ [] /\
  @Fill.resolveFieldName Reference.builtins "-" [""; "x"] ∅ [] = None /\
  @Spec.resolve Reference.builtins "-" [""; "x"] ∅ [] = Some "" /\
  @Fill.resolveFieldName Reference.builtins "-" [""; "x"]
     {[ "x" := Fill.checkbox ]} [Fill.checkbox] = Some "x" /\
  @Spec.resolve Reference.builtins "-" [""; "x"]
     {[ "x" := Fill.checkbox ]} [Fill.checkbox] = Some "".
Proof. split; [vm_compute; discriminate|]. repeat split; vm_compute; reflexivity. Qed.

(** The ambiguity example of the specification: no name is empty, and
    both report no match. *)
Lemma fill_resolver_reference_witness :
  @Fill.resolveFieldName Reference.builtins "phone" ["phone_home"; "phone_work"] ∅ []
  = @Spec.resolve Reference.builtins "phone" ["phone_home"; "phone_work"] ∅ [].
Proof.
  apply (@fill_resolver_reference Reference.builtins "phone"
           ["phone_home"; "phone_work"] ∅ []).
  repeat constructor; discriminate.
Defined.

(** The examples of section 8 of the specification. *)
Example resolve_full_name :
  @Fill.resolveFieldName Reference.builtins "full name" ["Full_Name"; "Email"] ∅ []
  = Some "Full_Name".
Proof. vm_compute. reflexivity. Qed.

Example resolve_phone_ambiguous :
  @Fill.resolveFieldName Reference.builtins "phone" ["phone_home"; "phone_work"] ∅ []
  = None.
Proof. vm_compute. reflexivity. Qed.

(** C4, as stated, fails: with two names containing the request the detect
    resolver returns the first and the fill resolver none. *)
Lemma detect_fill_resolvers_differ :
  @Detect.resolveFieldName Reference.builtins "phone" ["phone_home"; "phone_work"]
  <> @Fill.resolveFieldName Reference.builtins "phone" ["phone_home"; "phone_work"] ∅ [].
Proof. vm_compute. discriminate. Qed.

Lemma detect_fill_resolvers_witness :
  @Detect.resolveFieldName Reference.builtins "mail" ["Full_Name"; "Email"]
  = Some "Email" /\
  @Fill.resolveFieldName Reference.builtins "mail" ["Full_Name"; "Email"] ∅ []
  = Some "Email".
Proof.
  exact (@detect_fill_resolvers Reference.builtins "mail" ["Full_Name"; "Email"] ∅
           ltac:(repeat constructor; discriminate)).
Defined.

(** ** The detection response validator *)

Section validator.
Context `{!JS.Builtins}.

(** Whatever the body of the [try] throws, the [catch] answers the empty
    detection. *)
Lemma parseResponse_catch raw :
  Detect.parseBlock (Detect.jsonBlock raw) = None ->
  Detect.parseResponse raw = {| Detect.fields := []; Detect.title := None |}.
Proof. unfold Detect.parseResponse. by intros ->. Qed.

(** C5: [parseResponse] is a total function, and on a payload whose block
    (the inside of the code fence, or the whole text) [JSON.parse] rejects,
    the body of the [try] throws and the result is exactly the empty field
    list with no title. *)
Theorem parseResponse_unparseable raw :
  JS.JSON_parse (Detect.jsonBlock raw) = None ->
  Detect.parseBlock (Detect.jsonBlock raw) = None /\
  Detect.parseResponse raw = {| Detect.fields := []; Detect.title := None |}.
Proof.
  intros Hparse.
  assert (Detect.parseBlock (Detect.jsonBlock raw) = None) as Hbody.
  { unfold Detect.parseBlock. by rewrite Hparse. }
  split; [exact Hbody | by apply parseResponse_catch].
Qed.

Lemma mapM_length_eq {A B} (f : A -> option B) (l : list A) (k : list B) :
  mapM f l = Some k -> length k = length l.
Proof. intros Hm. symmetry. by apply (length_mapM f). Qed.

(** C6 (amended): the number of proposals that the validator retains is
    bounded by the number of raw entries of the parsed payload, and by
    nothing else: when no entry makes the callback of [map] throw, the
    proposals are the mapped entries whose name and label are not empty,
    in order; when one does, or the payload does not parse, there is
    none. *)
Theorem parseResponse_retains raw :
  match JS.JSON_parse (Detect.jsonBlock raw) with
  | Some parsed =>
      (length (Detect.fields (Detect.parseResponse raw))
       <= length (Detect.fieldsRaw parsed))%nat /\
      match mapM Detect.mapItem (Detect.fieldsRaw parsed) with
      | Some mapped =>
          Detect.fields (Detect.parseResponse raw) = List.filter Detect.keep mapped
      | None => Detect.fields (Detect.parseResponse raw) = []
      end
  | None => Detect.fields (Detect.parseResponse raw) = []
  end.
Proof.
  unfold Detect.parseResponse, Detect.parseBlock.
  destruct (JS.JSON_parse (Detect.jsonBlock raw)) as [parsed|]; [|reflexivity].
  cbn [mbind option_bind].
  destruct (mapM Detect.mapItem (Detect.fieldsRaw parsed)) as [mapped|] eqn:Hmap;
    cbn [mbind option_bind Detect.fields length]; [|split; [lia | reflexivity]].
  split; [|reflexivity].
  rewrite <- (mapM_length_eq _ _ _ Hmap). apply List.filter_length_le.
Qed.

End validator.

(** The example of section 8: the text [not json]. *)
Lemma parseResponse_unparseable_witness :
  @Detect.parseResponse Reference.builtins "not json"
  = {| Detect.fields := []; Detect.title := None |}.
Proof.
  apply (@parseResponse_unparseable Reference.builtins "not json").
  vm_compute. reflexivity.
Defined.

(** C6, as stated, fails: of the fifty entries of a well-formed answer the
    validator retains all fifty. *)
Lemma parseResponse_no_cap :
  length (Detect.fields (@Detect.parseResponse Reference.builtins (answer 50))) = 50%nat /\
  ~ (length (Detect.fields (@Detect.parseResponse Reference.builtins (answer 50)))
     <= 30)%nat.
Proof.
  assert (length (Detect.fields (@Detect.parseResponse Reference.builtins (answer 50)))
          = 50%nat) as Hlen by (vm_compute; reflexivity).
  split; [exact Hlen | rewrite Hlen; lia].
Qed.

(** ** The fill loop: the used-names set *)

Section fill_loop.
Context `{!JS.Builtins}.

(** What the resolver returns is one of the names it was given. *)
Lemma resolveFieldName_available requested available kindMap preferredKinds n :
  Fill.resolveFieldName requested available kindMap preferredKinds = Some n ->
  n ∈ available.
Proof.
  unfold Fill.resolveFieldName. cbn zeta.
  repeat match goal with
  | |- context [JS.truthy (find ?f available)] =>
      destruct (JS.truthy (find f available));
      [ intros Hfind; by apply find_elem_of in Hfind as [? _] | ]
  end.
  set (contains := filter _ available).
  assert (forall m, m ∈ contains -> m ∈ available) as Hsub.
  { intros m Hm. by apply list_elem_of_filter in Hm as [_ ?]. }
  destruct (length contains =? 1)%nat.
  { intros Hhead. apply Hsub. destruct contains; simplify_eq/=. by left. }
  destruct (JS.truthy _); [|done].
  destruct (_ && _); [|done].
  intros Hfind. apply Hsub. by apply find_elem_of in Hfind as [? _].
Qed.

Variable pdfDoc : PdfLib.PDFDocument.
Variable availableFieldNames : list string.
Variable fieldKinds : gmap string Fill.PdfFieldKind.
Variable values : list (string * Types.Value).

Local Abbreviation pass := (Fill.pass pdfDoc availableFieldNames fieldKinds values).
Local Abbreviation loop := (Fill.loop pdfDoc availableFieldNames fieldKinds values).
Local Abbreviation fallback := (fallbackTarget availableFieldNames fieldKinds).

Lemma fallback_available used field n :
  fallback used field = Some n -> n ∈ availableFieldNames /\ n ∉ used.
Proof.
  intros [Hin Hf]%find_elem_of. split; [done|].
  apply andb_prop in Hf as [Hf _]. apply negb_true_iff in Hf.
  by apply bool_decide_eq_false in Hf.
Qed.

Ltac pass_cases used field :=
  unfold Fill.pass; fold (fallback used field);
  destruct (JS.truthy (Some (Fill.name field))) eqn:Hname; cbn [negb];
  [ destruct (Fill.valueOf values (Fill.name field)) as [value|] eqn:Hvalue;
    [ match goal with
      | |- context [match ?t with Some _ => _ | None => _ end] =>
          destruct t as [[|c0 t0]|] eqn:Htarget
      end | ] | ];
  cbn [Fill.candidates Fill.resolvedName Fill.targetName Fill.used Fill.effect].

Lemma pass_candidates used field n :
  n ∈ Fill.candidates (pass used field) -> n ∈ availableFieldNames /\ n ∉ used.
Proof.
  pass_cases used field;
    first [ by intros ?%elem_of_nil
          | intros [? ?]%list_elem_of_filter; by split ].
Qed.

Lemma pass_resolved used field n :
  Fill.resolvedName (pass used field) = Some n ->
  n ∈ Fill.candidates (pass used field).
Proof.
  pass_cases used field;
    first [ discriminate | by intros ?%resolveFieldName_available ].
Qed.

Lemma pass_used_mono used field : used ⊆ Fill.used (pass used field).
Proof. pass_cases used field; set_solver. Qed.

(** A pass that reaches [used.add(targetName)]: the name is an available
    one that no earlier pass reserved, it is reserved from now on, and it
    is the field the value is applied to. *)
Lemma pass_target used field n :
  Fill.targetName (pass used field) = Some n ->
  n ∈ availableFieldNames /\ (n ∉ used) /\ n <> "" /\
  Fill.used (pass used field) = (used ∪ {[ n ]}) /\
  exists value,
    Fill.valueOf values (Fill.name field) = Some value /\
    Fill.effect (pass used field) = Some (Fill.applyValueToField n value).
Proof.
  pass_cases used field; try discriminate.
  intros [= <-].
  assert (String c0 t0 ∈ availableFieldNames /\ String c0 t0 ∉ used) as [Hin Hnot].
  { destruct (_ && _) in Htarget.
    - by apply (fallback_available used field).
    - apply resolveFieldName_available, list_elem_of_filter in Htarget.
      destruct Htarget. by split. }
  repeat split; [done | done | done | by exists value].
Qed.

(** A pass without a target reserves nothing and applies nothing. *)
Lemma pass_no_target used field :
  Fill.targetName (pass used field) = None ->
  Fill.used (pass used field) = used /\
  forall n value,
    Fill.effect (pass used field) <> Some (Fill.applyValueToField n value).
Proof.
  pass_cases used field; try discriminate; intros _; split; try done;
    intros n v; by destruct (Fill.bbox field).
Qed.

(** A pass on a named proposal calls the resolver on the names not yet
    used. *)
Lemma pass_resolvedName used field :
  Fill.name field <> "" ->
  Fill.resolvedName (pass used field)
  = Fill.resolveFieldName (Fill.name field)
      (filter (fun n => n ∉ used) availableFieldNames) fieldKinds
      (Fill.desiredKindsOf (Fill.type field)).
Proof.
  intros Hn%truthy_Some. pass_cases used field; [reflexivity.. | congruence].
Qed.

(** On a proposal that carries a name and a value, the target is the
    non-empty name the resolver returned, or else the non-empty name the
    type-aware fallback found. *)
Lemma pass_target_resolved used field value n :
  Fill.name field <> "" ->
  Fill.valueOf values (Fill.name field) = Some value ->
  n <> "" ->
  Fill.resolvedName (pass used field) = Some n ->
  Fill.targetName (pass used field) = Some n.
Proof.
  intros Hn Hv Hne. rewrite pass_resolvedName by done.
  apply truthy_Some in Hn. pose proof (truthy_Some _ Hne) as Htruthy.
  unfold Fill.pass. rewrite Hn, Hv. cbn [negb].
  intros ->. rewrite Htruthy. cbn [negb andb].
  destruct n; [done | reflexivity].
Qed.

Lemma pass_target_fallback used field value n :
  Fill.name field <> "" ->
  Fill.valueOf values (Fill.name field) = Some value ->
  n <> "" ->
  JS.truthy (Fill.resolvedName (pass used field)) = false ->
  Fill.desiredKindsOf (Fill.type field) <> [] ->
  fallback used field = Some n ->
  Fill.targetName (pass used field) = Some n.
Proof.
  intros Hn Hv Hne. rewrite pass_resolvedName by done.
  apply truthy_Some in Hn.
  unfold Fill.pass. fold (fallback used field). rewrite Hn, Hv. cbn [negb].
  intros -> Hkinds ->. cbn [negb andb].
  destruct (Fill.desiredKindsOf (Fill.type field)); [done|].
  cbn [length Nat.eqb negb].
  destruct n; [done | reflexivity].
Qed.

(** Every pass of the loop started with [used0] keeps [used0] reserved:
    its candidates, and so what it resolves and what it targets, avoid
    [used0]. *)
Lemma loop_later used0 fieldsToFill q :
  q ∈ loop used0 fieldsToFill ->
  used0 ⊆ Fill.used q /\
  (forall n, n ∈ Fill.candidates q -> n ∉ used0) /\
  (forall n, Fill.resolvedName q = Some n -> n ∉ used0) /\
  (forall n, Fill.targetName q = Some n -> n ∉ used0) /\
  (forall n value,
     Fill.effect q = Some (Fill.applyValueToField n value) -> n ∉ used0).
Proof.
  revert used0. induction fieldsToFill as [|field rest IH]; intros used0.
  { by intros ?%elem_of_nil. }
  cbn [Fill.loop]. intros [->|Hq]%elem_of_cons.
  - split; [apply pass_used_mono|].
    split; [intros n Hn; by apply pass_candidates in Hn as [_ ?]|].
    split; [intros n Hn; by apply pass_resolved, pass_candidates in Hn as [_ ?]|].
    split; [intros n Hn; by apply pass_target in Hn as (_ & ? & _)|].
    intros n v He.
    destruct (Fill.targetName (pass used0 field)) as [m|] eqn:Ht.
    + pose proof (pass_target _ _ _ Ht) as (_ & Hm & _ & _ & v' & _ & He').
      rewrite He in He'. by simplify_eq.
    + apply pass_no_target in Ht as [_ Ht]. by apply Ht in He.
  - pose proof (pass_used_mono used0 field) as Hmono.
    destruct (IH _ Hq) as (Hu & Hc & Hr & Ht & He).
    split; [set_solver|].
    split; [intros n Hn; specialize (Hc n Hn); set_solver|].
    split; [intros n Hn; specialize (Hr n Hn); set_solver|].
    split; [intros n Hn; specialize (Ht n Hn); set_solver|].
    intros n v Hn. specialize (He n v Hn). set_solver.
Qed.

(** A pass in the middle of a run: the passes after it are the loop
    continued from its [used], and every pass before it left a [used]
    that its own target avoids. *)
Lemma loop_split used0 fieldsToFill pre p post :
  loop used0 fieldsToFill = (pre ++ p :: post)%list ->
  exists used1 field rest,
    p = pass used1 field /\ post = loop (Fill.used p) rest /\
    used0 ⊆ used1 /\
    forall q, q ∈ pre -> Fill.used q ⊆ used1.
Proof.
  revert used0 fieldsToFill. induction pre as [|q0 pre IH]; intros used0 fs Hrun.
  - destruct fs as [|field rest]; [discriminate|].
    cbn [Fill.loop app] in Hrun. injection Hrun as <- <-.
    exists used0, field, rest. repeat split; [done|]. by intros ? ?%elem_of_nil.
  - destruct fs as [|field rest]; [discriminate|].
    cbn [Fill.loop] in Hrun. rewrite <- app_comm_cons in Hrun.
    injection Hrun as <- Hrun.
    destruct (IH _ _ Hrun) as (used1 & f1 & rest1 & -> & -> & Hsub & Hpre).
    exists used1, f1, rest1. repeat split.
    + etrans; [apply pass_used_mono | exact Hsub].
    + intros q [->|Hq]%elem_of_cons; [exact Hsub | by apply Hpre].
Qed.

(** A pass whose resolver returns a name that is not empty, for a
    proposal that has a value, takes that name as its target. *)
Lemma pass_resolved_with_value used field n :
  Fill.resolvedName (pass used field) = Some n ->
  n <> "" ->
  Fill.effect (pass used field) <> None ->
  Fill.targetName (pass used field) = Some n.
Proof.
  intros Hresolved Hn Heffect.
  assert (Fill.name field <> "") as Hname.
  { intros Hempty. revert Hresolved. unfold Fill.pass. by rewrite Hempty. }
  destruct (Fill.valueOf values (Fill.name field)) as [value|] eqn:Hvalue.
  - by apply (pass_target_resolved used field value).
  - exfalso. apply Heffect. unfold Fill.pass.
    rewrite (truthy_Some _ Hname), Hvalue. reflexivity.
Qed.

(** C1 (amended): in one run of the fill loop, from the empty [used] set
    and over any list of available field names, a name that a pass takes
    as its target is reserved, and a pass takes as its target the name
    that the resolver returns for a proposal that has a value (an effect),
    or the one the type-aware fallback finds: the name is in [used] after
    that pass and in every later one; no earlier pass had it as target;
    and no later pass has it among its candidates, resolves to it, targets
    it or applies a value to it.  (A proposal without a value reserves
    nothing, though its name resolves: [pass_no_target].) *)
Theorem used_names_one_to_one fieldsToFill pre p post n :
  loop ∅ fieldsToFill = (pre ++ p :: post)%list ->
  Fill.targetName p = Some n \/
  (Fill.resolvedName p = Some n /\ n <> "" /\ Fill.effect p <> None) ->
  Fill.targetName p = Some n /\
  n ∈ Fill.used p /\
  Forall (fun q => Fill.targetName q <> Some n) pre /\
  Forall (fun q =>
            n ∈ Fill.used q /\
            (n ∉ Fill.candidates q) /\
            Fill.resolvedName q <> Some n /\
            Fill.targetName q <> Some n /\
            forall value,
              Fill.effect q <> Some (Fill.applyValueToField n value)) post.
Proof.
  intros Hrun Hclaim.
  destruct (loop_split _ _ _ _ _ Hrun) as (used1 & field & rest & -> & -> & _ & Hpre).
  assert (Fill.targetName (pass used1 field) = Some n) as Htarget.
  { destruct Hclaim as [Htarget | (Hresolved & Hn & Heffect)]; [exact Htarget|].
    by apply pass_resolved_with_value. }
  split; [exact Htarget|].
  pose proof (pass_target _ _ _ Htarget) as (_ & Hfresh & _ & Hused & _).
  assert (n ∈ Fill.used (pass used1 field)) as Hin by (rewrite Hused; set_solver).
  split; [exact Hin|]. split.
  - apply Forall_forall. intros q Hq Hqn.
    assert (q ∈ loop ∅ fieldsToFill) as Hq' by (rewrite Hrun; set_solver).
    assert (exists used2 f2, q = pass used2 f2) as (used2 & f2 & ->).
    { clear -Hq'. revert Hq'. generalize (∅ : gset string).
      induction fieldsToFill as [|f fs IH]; intros u; [by intros ?%elem_of_nil|].
      cbn [Fill.loop]. intros [->|Hq]%elem_of_cons; [by eauto | by eapply IH]. }
    pose proof (pass_target _ _ _ Hqn) as (_ & _ & _ & Hq2 & _).
    apply Hfresh, (Hpre _ Hq). rewrite Hq2. set_solver.
  - apply Forall_forall. intros q Hq.
    destruct (loop_later _ _ _ Hq) as (Hu & Hc & Hr & Ht & He).
    split; [set_solver|].
    split; [intros Hn; by apply Hc in Hn|].
    split; [intros Hn; by apply Hr in Hn|].
    split; [intros Hn; by apply Ht in Hn|].
    intros v Hn. by apply He in Hn.
Qed.

(** The names the passes of a run reserve are pairwise distinct. *)
Lemma loop_targets_NoDup used0 fieldsToFill :
  NoDup (omap Fill.targetName (loop used0 fieldsToFill)).
Proof.
  revert used0. induction fieldsToFill as [|field rest IH]; intros used0.
  { constructor. }
  cbn [Fill.loop omap list_omap].
  destruct (Fill.targetName (pass used0 field)) as [n|] eqn:Ht; [|apply IH].
  constructor; [|apply IH].
  intros (q & Hq & Hqn)%list_elem_of_omap.
  apply loop_later in Hq as (_ & _ & _ & Hfresh & _).
  apply (Hfresh _ Hqn).
  pose proof (pass_target _ _ _ Ht) as (_ & _ & _ & -> & _). set_solver.
Qed.

End fill_loop.

(** The first proposal takes "a" by name, the second takes "b" by kind, and
    the third, whose name matches "a" but for the case, is left without. *)
Lemma used_names_one_to_one_witness :
  exists p post,
    @Fill.loop Reference.builtins blankPage inventory inventoryKinds answers ∅
       proposals = p :: post /\
    Fill.targetName p = Some "a" /\
    omap Fill.targetName post = ["b"] /\
    Forall (fun q => Fill.resolvedName q <> Some "a") post.
Proof.
  eexists _, _. split; [reflexivity|].
  split; [vm_compute; reflexivity|].
  split; [vm_compute; reflexivity|].
  eapply Forall_impl;
    [ refine (proj2 (proj2 (proj2 (@used_names_one_to_one Reference.builtins
               blankPage inventory inventoryKinds answers proposals [] _ _ "a"
               eq_refl _))));
      right; split; [vm_compute; reflexivity|];
      split; [discriminate | vm_compute; discriminate]
    | intros q Hq; exact (proj1 (proj2 (proj2 Hq))) ].
Defined.

(** C1, as stated, fails: the name of a proposal without a value resolves
    to the field "a" and reserves nothing, and the next proposal resolves
    to the same field and fills it. *)
Lemma resolved_name_not_reserved :
  exists p q,
    @Fill.loop Reference.builtins blankPage inventory inventoryKinds
       [("A", Types.VString "2")] ∅ [Fill.ofName "a"; Fill.ofName "A"] = [p; q] /\
    Fill.resolvedName p = Some "a" /\
    Fill.used p = ∅ /\
    Fill.resolvedName q = Some "a" /\
    Fill.targetName q = Some "a" /\
    Fill.effect q = Some (Fill.applyValueToField "a" (Types.VString "2")).
Proof.
  eexists _, _. split; [reflexivity|].
  repeat split; vm_compute; reflexivity.
Qed.

(** ** The native-form gate of both routes *)

Section gate.
Context `{!JS.Builtins}.

Lemma resolveFieldName_nil requested kindMap preferredKinds :
  Fill.resolveFieldName requested [] kindMap preferredKinds = None.
Proof. reflexivity. Qed.

Lemma detect_resolveFieldName_nil requested :
  Detect.resolveFieldName requested [] = None.
Proof. reflexivity. Qed.

Lemma pass_nil pdfDoc fieldKinds values field :
  Fill.pass pdfDoc [] fieldKinds values ∅ field = overlayPass pdfDoc values field.
Proof.
  unfold Fill.pass, overlayPass.
  destruct (JS.truthy (Some (Fill.name field))); cbn [negb]; [|reflexivity].
  rewrite filter_nil, resolveFieldName_nil.
  destruct (Fill.valueOf values (Fill.name field)); [|reflexivity].
  cbn [JS.truthy negb andb find].
  destruct (negb _); by destruct (Fill.bbox field).
Qed.

Lemma loop_nil pdfDoc fieldKinds values fieldsToFill :
  Fill.loop pdfDoc [] fieldKinds values ∅ fieldsToFill
  = overlayPass pdfDoc values <$> fieldsToFill.
Proof.
  induction fieldsToFill as [|field rest IH]; [reflexivity|].
  cbn [Fill.loop fmap list_fmap]. rewrite pass_nil. cbn [Fill.used overlayPass].
  by rewrite IH.
Qed.

Lemma enrich_nil form field : Detect.enrich form [] field = (field, None).
Proof. reflexivity. Qed.

Lemma own_in values key value :
  (key, value) ∈ values -> is_Some (Fill.own values key).
Proof.
  unfold Fill.own. induction values as [|[k v] rest IH]; [by intros ?%elem_of_nil|].
  cbn [find fst]. destruct (String.eqb k key) eqn:Hk; [by eexists|].
  intros [[= -> ->]|Hin]%elem_of_cons; [by rewrite String.eqb_refl in Hk|].
  by apply IH.
Qed.

Lemma valueOf_own values key :
  is_Some (Fill.own values key) -> Fill.valueOf values key = Fill.own values key.
Proof. unfold Fill.valueOf. by intros [value ->]. Qed.

(** C2 (amended): a document that loads with a structured-field inventory
    is turned away by both routes with the same 400 answer, before any
    matching.  On a document without one the detect route answers the
    validated proposals as they are, having probed no field, and the fill
    route makes one pass for each proposal, with no candidate, no resolved
    name, no target and an empty [used] set: it applies no value; for a
    proposal whose name is not empty and gives a value in [payload.values]
    it draws the value at the bounding box or, without a box, warns; and it
    answers 200 unless [page.drawText] or [pdfDoc.save] throws, and 500
    then.  When the request names no fields, every value supplied under a
    key that is not empty is skipped with a warning. *)
Theorem native_form_gate
    (PDFDocument_load : string -> option PdfLib.PDFDocument)
    (generateContent : string -> option string)
    (drawText : Fill.DrawText -> bool) (save : list Fill.Pass -> bool)
    (apiKey file : string) (payload : Types.FillPayload)
    (values : list (string * Types.Value)) (pdfDoc : PdfLib.PDFDocument) :
  apiKey <> "" ->
  Types.pdfBase64 payload <> "" ->
  Types.values payload = Some values ->
  PDFDocument_load file = Some pdfDoc ->
  PDFDocument_load (Types.pdfBase64 payload) = Some pdfDoc ->
  match PdfLib.getFields pdfDoc with
  | _ :: _ =>
      Detect.POST PDFDocument_load generateContent (Some apiKey) (Some file)
      = Detect.ErrorResponse Detect.nativeFormError 400 /\
      Fill.POST PDFDocument_load drawText save (Some payload)
      = Fill.ErrorResponse Fill.nativeFormError 400
  | [] =>
      let passes :=
        overlayPass pdfDoc values <$> Fill.fieldsToFill payload values in
      Detect.POST PDFDocument_load generateContent (Some apiKey) (Some file)
      = match generateContent file with
        | Some answer =>
            let parsed := Detect.parseResponse (JS.trim answer) in
            Detect.Json (Detect.fields parsed) (Detect.title parsed) []
        | None => Detect.ErrorResponse "Failed to detect fields from PDF" 500
        end /\
      Fill.POST PDFDocument_load drawText save (Some payload)
      = (if forallb (Fill.getsPast drawText) passes && save passes
         then Fill.Saved passes
         else Fill.ErrorResponse "Failed to fill PDF" 500) /\
      (Types.fields payload = None \/ Types.fields payload = Some [] ->
       forall key value,
         (key, value) ∈ values -> key <> "" ->
         Fill.console_warn key ∈ omap Fill.effect passes)
  end.
Proof.
  intros Hkey Hpdf Hvalues Hfile Hload.
  unfold Detect.POST, Fill.POST.
  rewrite (truthy_Some _ Hkey), Hfile, Hvalues. cbn [negb].
  revert Hpdf Hload. destruct (Types.pdfBase64 payload) as [|c0 b0]; [done|].
  intros _ ->.
  destruct (PdfLib.getFields pdfDoc) as [|f form] eqn:Hform.
  - cbn [length Nat.ltb Nat.leb fmap list_fmap]. split; [|split].
    + destruct (generateContent file) as [answer|]; [|reflexivity].
      cbn zeta. f_equal.
      * induction (Detect.fields _) as [|d ds IH]; [reflexivity|].
        cbn [fmap list_fmap]. rewrite enrich_nil. cbn [fst]. by f_equal.
      * induction (Detect.fields _) as [|d ds IH]; [reflexivity|].
        cbn [fmap list_fmap omap list_omap]. by rewrite enrich_nil.
    + by rewrite loop_nil.
    + intros Hfields key value Hin Hne.
      assert (Fill.fieldsToFill payload values
              = (fun kv => Fill.ofName (fst kv)) <$> values) as ->.
      { unfold Fill.fieldsToFill. by destruct Hfields as [-> | ->]. }
      apply list_elem_of_omap.
      exists (overlayPass pdfDoc values (Fill.ofName key)). split.
      * apply list_elem_of_fmap. exists (Fill.ofName key). split; [reflexivity|].
        apply list_elem_of_fmap. by exists (key, value).
      * unfold overlayPass. cbn [Fill.effect Fill.name Fill.bbox Fill.ofName].
        rewrite (truthy_Some _ Hne).
        pose proof (own_in _ _ _ Hin) as Hown.
        rewrite (valueOf_own _ _ Hown). by destruct Hown as [v ->].
  - split; reflexivity.
Qed.

End gate.

Lemma native_form_gate_witness :
  (@Detect.POST Reference.builtins (fun _ => Some nativeForm)
     (fun _ => Some (answer 2)) (Some "key") (Some "%PDF")
   = Detect.ErrorResponse Detect.nativeFormError 400) /\
  (@Fill.POST Reference.builtins (fun _ => Some nativeForm) (fun _ => true)
     (fun _ => true) (Some fillRequest)
   = Fill.ErrorResponse Fill.nativeFormError 400) /\
  (exists fields,
     @Detect.POST Reference.builtins (fun _ => Some blankPage)
       (fun _ => Some (answer 2)) (Some "key") (Some "%PDF")
     = Detect.Json fields (Some "Form") [] /\
     Types.name <$> fields = ["field_0"; "field_1"]) /\
  (exists drawn,
     @Fill.POST Reference.builtins (fun _ => Some blankPage) (fun _ => true)
       (fun _ => true) (Some fillRequest)
     = Fill.Saved
         [ {| Fill.candidates := []; Fill.resolvedName := None;
              Fill.targetName := None; Fill.used := ∅;
              Fill.effect :=
                Some (Fill.drawValueAtBBox_ (Fill.ofDetectedField signatureDate)
                        (Types.VString "2024-01-01") (Some drawn)) |} ] /\
     Fill.dt_page drawn = 0%Z /\ Fill.dt_text drawn = "2024-01-01" /\
     (369 <= Fill.dt_x drawn <= 370)%Q /\ (61 <= Fill.dt_y drawn <= 62)%Q /\
     (9 <= Fill.dt_size drawn <= 16)%Q).
Proof.
  pose proof (@native_form_gate Reference.builtins (fun _ => Some nativeForm)
                (fun _ => Some (answer 2)) (fun _ => true) (fun _ => true)
                "key" "%PDF" fillRequest
                [("signature_date", Types.VString "2024-01-01")] nativeForm
                ltac:(discriminate) ltac:(discriminate) eq_refl eq_refl eq_refl)
    as [Hdetect Hfill].
  pose proof (@native_form_gate Reference.builtins (fun _ => Some blankPage)
                (fun _ => Some (answer 2)) (fun _ => true) (fun _ => true)
                "key" "%PDF" fillRequest
                [("signature_date", Types.VString "2024-01-01")] blankPage
                ltac:(discriminate) ltac:(discriminate) eq_refl eq_refl eq_refl)
    as (Hdetect' & Hfill' & _).
  split; [exact Hdetect|]. split; [exact Hfill|]. split.
  - eexists. split; [etrans; [exact Hdetect' | vm_compute; reflexivity]|].
    vm_compute. reflexivity.
  - eexists. split; [etrans; [exact Hfill' | vm_compute; reflexivity]|].
    vm_compute. repeat split; discriminate.
Defined.

(** C2, as stated, fails in its last part: the request passes the check
    and is answered 200, and the value it supplies under "phone", for
    which it names no field, is neither drawn nor skipped with a warning:
    no pass is made for it. *)
Lemma supplied_value_dropped :
  exists passes,
    @Fill.POST Reference.builtins (fun _ => Some blankPage) (fun _ => true)
      (fun _ => true) (Some fillRequestAndPhone) = Fill.Saved passes /\
    Types.values fillRequestAndPhone
    = Some [("signature_date", Types.VString "2024-01-01");
            ("phone", Types.VString "555")] /\
    existsb (handles "phone") passes = false.
Proof.
  eexists. split; [vm_compute; reflexivity|].
  split; reflexivity.
Qed.

(** ** Overlay geometry *)

(** C7: a box is taken as normalized exactly when its [x] and [y] are at
    most 1 and its [width] and [height] are absent or at most 1; the test
    reads the box alone, and the scaled rectangle is the box times the page
    size when it holds and the box as it is (page units) when it does not. *)
Theorem unit_inference (b : Types.FieldBBox) (pageWidth pageHeight : Q) :
  (Fill.isNormalized b = true <->
   (Types.x b <= 1)%Q /\ (Types.y b <= 1)%Q /\
   match Types.width b with Some w => (w <= 1)%Q | None => True end /\
   match Types.height b with Some h => (h <= 1)%Q | None => True end) /\
  Fill.width b pageWidth
  = (if Fill.isNormalized b
     then JS.mul (default (JS.double 0.4) (Types.width b)) pageWidth
     else default (JS.mul pageWidth (JS.double 0.4)) (Types.width b)) /\
  Fill.height b pageHeight
  = (if Fill.isNormalized b
     then JS.mul (default (JS.double 0.04) (Types.height b)) pageHeight
     else default 24%Q (Types.height b)) /\
  Fill.x b pageWidth
  = (if Fill.isNormalized b
     then JS.mul (Qmax 0 (Qmin 1 (Types.x b))) pageWidth
     else Qmax 0 (Qmin (JS.sub pageWidth (Fill.width b pageWidth)) (Types.x b))) /\
  Fill.yFromTop b pageHeight
  = (if Fill.isNormalized b
     then JS.mul (Qmax 0 (Qmin 1 (Types.y b))) pageHeight
     else Qmax 0 (Qmin pageHeight (Types.y b))).
Proof.
  split.
  - unfold Fill.isNormalized. rewrite !andb_true_iff, !Qle_bool_iff.
    destruct (Types.width b), (Types.height b); cbn [default]; intuition lra.
  - unfold Fill.x, Fill.yFromTop, Fill.width, Fill.height, Fill.rawWidth,
      Fill.rawHeight.
    destruct (Fill.isNormalized b); repeat split; reflexivity.
Qed.

(** The examples of section 8. *)
Example unit_inference_normalized :
  Fill.isNormalized {| Types.page := 0; Types.x := JS.double 0.1;
                       Types.y := JS.double 0.2;
                       Types.width := Some (JS.double 0.3);
                       Types.height := Some (JS.double 0.05) |}
  = true.
Proof. vm_compute. reflexivity. Qed.

Example unit_inference_absolute :
  Fill.isNormalized {| Types.page := 0; Types.x := 120; Types.y := 300;
                       Types.width := Some 200%Q; Types.height := Some 20%Q |}
  = false.
Proof. reflexivity. Qed.

Lemma Math_round_nearest (v : Q) :
  (inject_Z (Fill.Math_round v) <= v + (1 # 2) < inject_Z (Fill.Math_round v) + 1)%Q.
Proof.
  unfold Fill.Math_round. split; [apply Qfloor_le|].
  pose proof (Qlt_floor (v + (1 # 2))) as Hlt.
  rewrite inject_Z_plus in Hlt. exact Hlt.
Qed.

Lemma Math_round_integer (v : Q) (z : Z) :
  (v == inject_Z z)%Q -> Fill.Math_round v = z.
Proof.
  intros Hv. pose proof (Math_round_nearest v) as [Hlo Hhi].
  assert (z < Fill.Math_round v + 1 /\ Fill.Math_round v < z + 1)%Z; [|lia].
  rewrite !Zlt_Qlt, !inject_Z_plus.
  change (inject_Z 1) with 1%Q. lra.
Qed.

(** C8: on a document of at least one page the index of the page drawn on
    is the one the rule of the specification selects for the [page] of the
    box, rounded to the nearest integer (a half upwards) where it is none:
    the page itself when it is in range as a zero-based index, the page
    before it when it is not (whether or not that one is in range),
    clamped into [[0, pageCount - 1]]. *)
Theorem page_selection (pageCount : Z) (b : Types.FieldBBox) :
  (1 <= pageCount)%Z ->
  let page := Fill.Math_round (Types.page b) in
  (inject_Z page <= Types.page b + (1 # 2) < inject_Z page + 1)%Q /\
  (forall z : Z,
     (Types.page b == inject_Z z)%Q ->
     Fill.pageIndex pageCount b = Spec.pageSelection pageCount z /\
     Fill.pageIndex pageCount b
     = Z.max 0 (Z.min (pageCount - 1)
                  (if Spec.inRange pageCount z then z else z - 1))) /\
  Fill.pageIndex pageCount b = Spec.pageSelection pageCount page /\
  Fill.pageIndex pageCount b
  = Z.max 0 (Z.min (pageCount - 1)
               (if Spec.inRange pageCount page then page else page - 1)) /\
  (0 <= Fill.pageIndex pageCount b <= pageCount - 1)%Z.
Proof.
  intros Hpages page.
  assert (Fill.pageIndex pageCount b = Spec.pageSelection pageCount page /\
          Fill.pageIndex pageCount b
          = Z.max 0 (Z.min (pageCount - 1)
                       (if Spec.inRange pageCount page then page else page - 1)) /\
          (0 <= Fill.pageIndex pageCount b <= pageCount - 1)%Z) as Hrule.
  { unfold Fill.pageIndex, Spec.pageSelection, Spec.inRange. fold page.
    destruct (pageCount <=? page)%Z eqn:H1, (0 <? page)%Z eqn:H2,
             (0 <=? page)%Z eqn:H3, (page <? pageCount)%Z eqn:H4,
             (0 <=? page - 1)%Z eqn:H5, (page - 1 <? pageCount)%Z eqn:H6;
      cbn [andb]; lia. }
  split; [apply Math_round_nearest|]. split; [|exact Hrule].
  intros z Hz. rewrite <- (Math_round_integer _ _ Hz). fold page.
  split; apply Hrule.
Qed.

Lemma page_selection_witness :
  Fill.pageIndex 1 {| Types.page := 1; Types.x := 0; Types.y := 0;
                      Types.width := None; Types.height := None |} = 0%Z /\
  Fill.pageIndex 3 secondPage = 2%Z /\
  Fill.pageIndex 2 secondPage = 1%Z.
Proof.
  split; [|split].
  - exact (proj1 (proj1 (proj2 (page_selection 1
             {| Types.page := 1; Types.x := 0; Types.y := 0;
                Types.width := None; Types.height := None |} ltac:(lia))) 1%Z
             ltac:(reflexivity))).
  - exact (proj1 (proj1 (proj2 (page_selection 3 secondPage ltac:(lia))) 2%Z
             ltac:(reflexivity))).
  - exact (proj1 (proj1 (proj2 (page_selection 2 secondPage ltac:(lia))) 2%Z
             ltac:(reflexivity))).
Defined.

(** C9, as stated, fails.  A normalized box that starts at three quarters
    of the page and spans half of it is scaled to a rectangle from 459 to
    765 across and from 594 to 990 down; an absolute box wider than the
    page is moved to the left edge and still ends beyond the right one,
    and its top offset is not moved up for its height.  And an absolute
    box narrower than the page, which is moved to the left for its width,
    still ends beyond the right edge by the rounding of the difference
    [pageWidth - width], whether the sum is rounded or not. *)
Lemma rectangle_exceeds_page :
  Fill.isNormalized halfPage = true /\
  ~ (Fill.x halfPage 612 <= 612 - Fill.width halfPage 612)%Q /\
  ~ (Fill.x halfPage 612 + Fill.width halfPage 612 <= 612)%Q /\
  ~ (Fill.yFromTop halfPage 792 + Fill.height halfPage 792 <= 792)%Q /\
  Fill.isNormalized widerThanPage = false /\
  ~ (Fill.x widerThanPage 612 + Fill.width widerThanPage 612 <= 612)%Q /\
  ~ (Fill.yFromTop widerThanPage 792 + Fill.height widerThanPage 792 <= 792)%Q /\
  Fill.isNormalized nearEdge = false /\
  (0 <= Fill.width nearEdge a4Width <= a4Width)%Q /\
  ~ (Fill.x nearEdge a4Width + Fill.width nearEdge a4Width <= a4Width)%Q /\
  ~ (JS.add (Fill.x nearEdge a4Width) (Fill.width nearEdge a4Width) <= a4Width)%Q.
Proof. split_and!; vm_compute; congruence. Qed.

Lemma clamp_unit (v : Q) : (0 <= Qmax 0 (Qmin 1 v) <= 1)%Q.
Proof.
  split; [apply Q.le_max_l|].
  apply Q.max_lub; [lra | apply Q.le_min_l].
Qed.

Lemma mul_clamped (c W : Q) :
  (0 <= c <= 1)%Q -> (0 <= W)%Q -> JS.isDouble W ->
  (0 <= JS.mul c W <= W)%Q.
Proof.
  intros [Hlo Hhi] HW Hdouble. unfold JS.mul. split.
  - apply double_nonneg. nra.
  - apply double_le_r; [exact Hdouble | nra].
Qed.

(** C9 (amended): on a page of non-negative size, the [x] of an absolute
    box whose width (its own, or the default of 40% of the page) is at
    most the page width is clamped into [[0, pageWidth - width]], the
    difference being the double that the subtraction gives; the [x] of a
    normalized box is clamped into [[0, pageWidth]]; and the distance
    [yFromTop] of either is clamped into [[0, pageHeight]]. *)
Theorem overlay_clamped (b : Types.FieldBBox) (pageWidth pageHeight : Q) :
  (0 <= pageWidth)%Q ->
  (0 <= pageHeight)%Q ->
  JS.isDouble pageWidth ->
  JS.isDouble pageHeight ->
  (Fill.isNormalized b = false ->
   (Fill.width b pageWidth <= pageWidth)%Q ->
   (0 <= Fill.x b pageWidth <= JS.sub pageWidth (Fill.width b pageWidth))%Q) /\
  (Fill.isNormalized b = true -> (0 <= Fill.x b pageWidth <= pageWidth)%Q) /\
  (0 <= Fill.yFromTop b pageHeight <= pageHeight)%Q.
Proof.
  intros Hw Hh Hdw Hdh. split; [|split].
  - intros Habs Hw1. unfold Fill.x. rewrite Habs.
    set (w := Fill.width b pageWidth) in *.
    split; [apply Q.le_max_l|].
    apply Q.max_lub; [|apply Q.le_min_l].
    apply double_nonneg. lra.
  - intros Hnorm. unfold Fill.x. rewrite Hnorm.
    by apply mul_clamped; [apply clamp_unit | |].
  - unfold Fill.yFromTop. destruct (Fill.isNormalized b).
    + by apply mul_clamped; [apply clamp_unit | |].
    + split; [apply Q.le_max_l|].
      apply Q.max_lub; [lra | apply Q.le_min_l].
Qed.

Lemma overlay_clamped_witness :
  (0 <= Fill.x inPage 612 <= JS.sub 612 (Fill.width inPage 612))%Q /\
  (0 <= Fill.x nearEdge a4Width
     <= JS.sub a4Width (Fill.width nearEdge a4Width))%Q.
Proof.
  split.
  - refine (proj1 (overlay_clamped inPage 612 792 _ _ _ _) eq_refl _).
    + vm_compute. discriminate.
    + vm_compute. discriminate.
    + vm_compute. reflexivity.
    + vm_compute. reflexivity.
    + vm_compute. discriminate.
  - refine (proj1 (overlay_clamped nearEdge a4Width 792 _ _ _ _) eq_refl _).
    + vm_compute. discriminate.
    + vm_compute. discriminate.
    + vm_compute. reflexivity.
    + vm_compute. reflexivity.
    + vm_compute. discriminate.
Defined.

(** X1: the point the text is drawn at is on the page: on a page at least 6
    units wide, [x] lies in [[2, pageWidth - 4]] (the difference as the
    subtraction gives it); for a box of non-negative height on a page at
    least 2 units high, [y] lies in [[2, pageHeight]]; and the font size
    lies in [[9, 16]]. *)
Lemma drawText_on_page pdfDoc field value drawn :
  Fill.drawValueAtBBox pdfDoc field value = Some drawn ->
  exists b page,
    Fill.bbox field = Some b /\
    PdfLib.getPages pdfDoc !! Z.to_nat (Fill.dt_page drawn) = Some page /\
    ((6 <= PdfLib.getWidth page)%Q ->
     (2 <= Fill.dt_x drawn <= JS.sub (PdfLib.getWidth page) 4)%Q /\
     (JS.isDouble (PdfLib.getWidth page) ->
      (Fill.dt_x drawn <= PdfLib.getWidth page)%Q)) /\
    ((2 <= PdfLib.getHeight page)%Q ->
     JS.isDouble (PdfLib.getHeight page) ->
     (0 <= Fill.height b (PdfLib.getHeight page))%Q ->
     (2 <= Fill.dt_y drawn <= PdfLib.getHeight page)%Q) /\
    (9 <= Fill.dt_size drawn <= 16)%Q.
Proof.
  unfold Fill.drawValueAtBBox.
  destruct (Fill.bbox field) as [b|]; [|discriminate].
  destruct (_ !! _) as [page|] eqn:Hpage; [|discriminate].
  intros [= <-]. exists b, page. cbn [Fill.dt_page Fill.dt_x Fill.dt_y Fill.dt_size].
  split; [reflexivity|]. split; [exact Hpage|].
  set (W := PdfLib.getWidth page). set (H := PdfLib.getHeight page).
  split; [|split].
  - intros HW.
    assert (2 <= JS.sub W 4)%Q as Hsub.
    { change 2%Q with (JS.double 2) at 1. apply double_le. lra. }
    split; [split|].
    + apply Q.min_glb; [exact Hsub | apply Q.le_max_l].
    + apply Q.le_min_l.
    + intros Hdouble. eapply Qle_trans; [apply Q.le_min_l|].
      apply double_le_r; [exact Hdouble | lra].
  - intros HH Hdouble Hheight. split; [apply Q.le_max_l|].
    apply Q.max_lub; [lra|].
    unfold Fill.y. eapply Qle_trans; [apply Q.le_min_l|].
    assert (0 <= Fill.padding b H)%Q as Hpad.
    { unfold Fill.padding. apply Q.min_glb; [lra|].
      apply double_nonneg. fold H in Hheight. lra. }
    apply double_le_r; [exact Hdouble | lra].
  - unfold Fill.fontSize. split.
    + apply Q.min_glb; [lra | apply Q.le_max_l].
    + apply Q.le_min_l.
Qed.

(** * Further properties of the routes *)

(** ** Probing the kind of a field *)

Lemma getField_None form name :
  name ∉ (PdfLib.getName <$> form) -> PdfLib.getField form name = None.
Proof.
  intros Hnot. unfold PdfLib.getField.
  destruct (find _ form) as [f|] eqn:Hfind; [|reflexivity].
  apply find_elem_of in Hfind as [Hin Heq]. apply String.eqb_eq in Heq.
  exfalso. apply Hnot. rewrite <- Heq. by apply list_elem_of_fmap_2.
Qed.

Lemma detectFieldKind_absent form name :
  PdfLib.getField form name = None -> Fill.detectFieldKind form name = Fill.unknown.
Proof.
  intros Hnone.
  unfold Fill.detectFieldKind, PdfLib.getTextField, PdfLib.getCheckBox,
    PdfLib.getRadioGroup, PdfLib.getDropdown, PdfLib.getOptionList, PdfLib.getTyped.
  by rewrite Hnone.
Qed.

(** X2: the probes of [detectFieldKind] find the class of the first field of
    the name: text, check box, radio group, dropdown or option list; a
    button, a signature and a name that is not in the form are [unknown].
    The copies of the function in the two routes agree. *)
Theorem detectFieldKind_class (form : list PdfLib.PDFField) (name : string) :
  Fill.detectFieldKind form name
  = match PdfLib.getField form name with
    | Some f => kindOfClass (PdfLib.fieldClass f)
    | None => Fill.unknown
    end /\
  fillKind (Detect.detectFieldKind form name) = Fill.detectFieldKind form name.
Proof.
  unfold Fill.detectFieldKind, Detect.detectFieldKind, PdfLib.getTextField,
    PdfLib.getCheckBox, PdfLib.getRadioGroup, PdfLib.getDropdown,
    PdfLib.getOptionList, PdfLib.getTyped.
  destruct (PdfLib.getField form name) as [f|]; [|split; reflexivity].
  destruct (PdfLib.fieldClass f); split; reflexivity.
Qed.

Lemma fieldKinds_lookup (g : string -> Fill.PdfFieldKind) (names : list string)
    (m : gmap string Fill.PdfFieldKind) (k : string) :
  foldl (fun m name => <[name := g name]> m) m names !! k
  = if bool_decide (k ∈ names) then Some (g k) else m !! k.
Proof.
  revert m. induction names as [|n names IH]; intros m; [reflexivity|].
  cbn [foldl]. rewrite IH.
  destruct (decide (k ∈ names)) as [Hin|Hnot].
  - rewrite !bool_decide_eq_true_2; [reflexivity | by right | done].
  - rewrite (bool_decide_eq_false_2 (k ∈ names)) by done.
    destruct (decide (k = n)) as [->|Hne].
    + rewrite lookup_insert_eq, bool_decide_eq_true_2; [reflexivity | by left].
    + rewrite lookup_insert_ne by done.
      rewrite bool_decide_eq_false_2; [reflexivity|].
      intros [?|?]%elem_of_cons; done.
Qed.

(** X3: the map [fieldKinds] that [POST] fills before the loop answers, for
    every name, what probing the form for it answers: the kind of the
    field for a name of the form, [unknown] for any other. *)
Theorem fieldKinds_memo (form : list PdfLib.PDFField) (name : string) :
  Fill.kindOf (Fill.fieldKindsOf form (PdfLib.getName <$> form)) name
  = Fill.detectFieldKind form name.
Proof.
  unfold Fill.kindOf, Fill.fieldKindsOf. rewrite fieldKinds_lookup.
  case_bool_decide as Hin; [reflexivity|].
  rewrite lookup_empty. cbn [default].
  symmetry. by apply detectFieldKind_absent, getField_None.
Qed.

(** ** What the resolvers return *)

Lemma prefix_refl (s : string) : String.prefix s s = true.
Proof.
  induction s as [|c s IH]; [reflexivity|].
  cbn [String.prefix]. destruct (ascii_dec c c); [exact IH | done].
Qed.

Lemma includes_refl (s : string) : JS.includes s s = true.
Proof. destruct s; cbn [JS.includes]; by rewrite prefix_refl. Qed.

Section resolved.
Context `{!JS.Builtins}.

Lemma tier_contains (f : string -> bool) requested available n :
  (forall m, f m = true ->
     JS.remove_non_alnum (JS.toLowerCase m)
     = JS.remove_non_alnum (JS.toLowerCase requested)) ->
  find f available = Some n ->
  n ∈ available /\
  JS.includes (JS.remove_non_alnum (JS.toLowerCase n))
              (JS.remove_non_alnum (JS.toLowerCase requested)) = true.
Proof.
  intros Hf [Hin Hn]%find_elem_of. split; [done|].
  rewrite (Hf _ Hn). apply includes_refl.
Qed.

(** X4: whatever either resolver returns is one of the available names, and
    its normalized form contains the normalized form of the request. *)
Theorem resolved_name_sound requested available kindMap preferredKinds n :
  Fill.resolveFieldName requested available kindMap preferredKinds = Some n \/
  Detect.resolveFieldName requested available = Some n ->
  n ∈ available /\
  JS.includes (Fill.normalize n) (Fill.normalize requested) = true.
Proof.
  unfold Fill.resolveFieldName, Detect.resolveFieldName, Detect.normalize,
    Fill.normalize. cbn zeta.
  assert (forall m, String.eqb m requested = true ->
            JS.remove_non_alnum (JS.toLowerCase m)
            = JS.remove_non_alnum (JS.toLowerCase requested)) as Hexact.
  { by intros m ->%String.eqb_eq. }
  assert (forall m, String.eqb (JS.toLowerCase m) (JS.toLowerCase requested) = true ->
            JS.remove_non_alnum (JS.toLowerCase m)
            = JS.remove_non_alnum (JS.toLowerCase requested)) as Hcase.
  { by intros m ->%String.eqb_eq. }
  assert (forall m,
            String.eqb (JS.remove_non_alnum (JS.toLowerCase m))
                       (JS.remove_non_alnum (JS.toLowerCase requested)) = true ->
            JS.remove_non_alnum (JS.toLowerCase m)
            = JS.remove_non_alnum (JS.toLowerCase requested)) as Hnorm.
  { by intros m ?%String.eqb_eq. }
  set (contains := filter _ available).
  assert (forall m, m ∈ contains ->
            m ∈ available /\
            JS.includes (JS.remove_non_alnum (JS.toLowerCase m))
                        (JS.remove_non_alnum (JS.toLowerCase requested)) = true)
    as Hcontains.
  { intros m Hm. by apply list_elem_of_filter in Hm as [? ?]. }
  intros [Hfill | Hdetect].
  - revert Hfill.
    destruct (JS.truthy (find _ available)); [by apply tier_contains|].
    destruct (JS.truthy (find _ available)); [by apply tier_contains|].
    destruct (JS.truthy (find _ available)); [by apply tier_contains|].
    destruct (length contains =? 1)%nat.
    { intros Hhead. apply Hcontains. destruct contains; simplify_eq/=. by left. }
    destruct (JS.truthy _); [|done].
    destruct (_ && _); [|done].
    intros Hfind. apply Hcontains. by apply find_elem_of in Hfind as [? _].
  - revert Hdetect.
    destruct (JS.truthy (find _ available)); [by apply tier_contains|].
    destruct (JS.truthy (find _ available)); [by apply tier_contains|].
    destruct (JS.truthy (find _ available)); [by apply tier_contains|].
    destruct (JS.truthy (find _ available)); [|done].
    intros [Hin Hn]%find_elem_of. by split.
Qed.

(** X5: A request that is itself an available name, and not the empty one, is
    resolved to itself by both resolvers, whatever else is available. *)
Theorem exact_name_wins requested available kindMap preferredKinds :
  requested ∈ available ->
  requested <> "" ->
  Fill.resolveFieldName requested available kindMap preferredKinds
  = Some requested /\
  Detect.resolveFieldName requested available = Some requested.
Proof.
  intros Hin Hne.
  assert (find (fun name => String.eqb name requested) available = Some requested)
    as Hfind.
  { destruct (find _ available) as [m|] eqn:Hfind.
    - apply find_elem_of in Hfind as [_ ->%String.eqb_eq]. reflexivity.
    - apply list_elem_of_In in Hin.
      pose proof (find_none _ _ Hfind _ Hin) as Hno. cbn beta in Hno.
      by rewrite String.eqb_refl in Hno. }
  unfold Fill.resolveFieldName, Detect.resolveFieldName. cbn zeta.
  rewrite Hfind, (truthy_Some _ Hne). split; reflexivity.
Qed.

End resolved.

Lemma resolved_name_sound_witness :
  "Full_Name" ∈ ["Full_Name"; "Email"] /\
  JS.includes (@Fill.normalize Reference.builtins "Full_Name")
              (@Fill.normalize Reference.builtins "full name") = true.
Proof.
  apply (@resolved_name_sound Reference.builtins "full name"
           ["Full_Name"; "Email"] ∅ [] "Full_Name").
  left. vm_compute. reflexivity.
Defined.

Lemma exact_name_wins_witness :
  @Fill.resolveFieldName Reference.builtins "phone" ["phone_home"; "phone"] ∅ []
  = Some "phone".
Proof.
  refine (proj1 (@exact_name_wins Reference.builtins "phone"
                   ["phone_home"; "phone"] ∅ [] _ _)).
  - apply list_elem_of_In. vm_compute. tauto.
  - discriminate.
Defined.

(** ** The value applier *)

Section applier.
Context `{!JS.Builtins}.
Variable setText : PdfLib.PDFField -> string -> bool.
Variable select : PdfLib.PDFField -> string -> bool.

Local Abbreviation apply := (Apply.applyValueToField setText select).

(** The applier either warns and leaves every field as it was, or sets the
    named field, by the class the field has in the form and not by the
    type the proposal declares, and warns of nothing. *)
Lemma apply_cases form state fieldName value :
  apply form state fieldName value = (state, Some fieldName) \/
  exists f content,
    PdfLib.getField form fieldName = Some f /\
    written f value = Some content /\
    apply form state fieldName value = (<[fieldName := content]> state, None).
Proof.
  unfold Apply.applyValueToField, written, PdfLib.getTextField, PdfLib.getCheckBox,
    PdfLib.getRadioGroup, PdfLib.getDropdown, PdfLib.getOptionList, PdfLib.getTyped.
  destruct (PdfLib.getField form fieldName) as [f|]; [|by left].
  destruct (PdfLib.fieldClass f) eqn:Hclass;
    repeat (case_bool_decide; try discriminate); cbn;
    repeat match goal with
    | |- context [setText ?f ?t] => destruct (setText f t); cbn
    | |- context [select ?f ?t] => destruct (select f t); cbn
    end;
    first [ by left | right; exists f; eexists; rewrite Hclass; done ].
Qed.

(** X6: applying a value changes the contents of no field but the named one,
    and when it warns it changes none at all. *)
Theorem apply_frame form state fieldName value other :
  other <> fieldName ->
  (apply form state fieldName value).1 !! other = state !! other /\
  ((apply form state fieldName value).2 <> None ->
   (apply form state fieldName value).1 = state).
Proof.
  intros Hother.
  destruct (apply_cases form state fieldName value)
    as [-> | (f & content & _ & _ & ->)]; cbn [fst snd].
  - done.
  - split; [by rewrite lookup_insert_ne | done].
Qed.

(** X7: round trip on a text field whose [setText] accepts the text: the
    field then holds the string form of the value (a boolean as "true" or
    "false"), and no warning is given. *)
Theorem apply_text form state fieldName value textField :
  PdfLib.getTextField form fieldName = Some textField ->
  setText textField (Fill.String_ value) = true ->
  (apply form state fieldName value).1 !! fieldName
  = Some (Apply.Text (match value with
                      | Types.VString s => s
                      | Types.VBoolean true => "true"
                      | Types.VBoolean false => "false"
                      end)) /\
  (apply form state fieldName value).2 = None.
Proof.
  intros Hfield Hok. unfold Apply.applyValueToField. rewrite Hfield. cbn.
  rewrite Hok. cbn. rewrite lookup_insert_eq. by destruct value as [|[]].
Qed.

(** X8: A check box ends checked exactly when the value is the boolean [true]
    or a string whose lower case is "true"; any other string, "yes" or
    "on" among them, unchecks it.  No warning is given. *)
Theorem apply_checkbox form state fieldName value checkbox :
  PdfLib.getCheckBox form fieldName = Some checkbox ->
  exists on,
    apply form state fieldName value
    = (<[fieldName := Apply.Checked on]> state, None) /\
    (on = true <->
     value = Types.VBoolean true \/
     exists s, value = Types.VString s /\ JS.toLowerCase s = "true").
Proof.
  intros Hbox. exists (Apply.checks value). split.
  - unfold Apply.applyValueToField. rewrite Hbox.
    unfold PdfLib.getCheckBox, PdfLib.getTextField, PdfLib.getTyped in *.
    destruct (PdfLib.getField form fieldName) as [f|]; [|discriminate].
    destruct (PdfLib.fieldClass f);
      repeat (case_bool_decide; try discriminate); reflexivity.
  - destruct value as [s|b]; cbn [Apply.checks Apply.normalized].
    + rewrite String.eqb_eq. split; [intros Hs; right; by exists s|].
      intros [?|(s' & [= <-] & ?)]; done.
    + split; [intros ->; by left|]. intros [[= ->]|(s & ? & _)]; done.
Qed.

(** X9: A name that is not in the form, a button, a signature, and a field
    whose [setText] or [select] refuses the value: the applier changes
    nothing and warns with the name. *)
Theorem apply_unsupported form state fieldName value :
  match PdfLib.getField form fieldName with
  | None => True
  | Some f =>
      match PdfLib.fieldClass f with
      | PdfLib.PDFButton | PdfLib.PDFSignature => True
      | PdfLib.PDFTextField => setText f (Fill.String_ value) = false
      | PdfLib.PDFCheckBox => False
      | _ => select f (Fill.String_ value) = false
      end
  end ->
  apply form state fieldName value = (state, Some fieldName).
Proof.
  unfold Apply.applyValueToField, PdfLib.getTextField, PdfLib.getCheckBox,
    PdfLib.getRadioGroup, PdfLib.getDropdown, PdfLib.getOptionList, PdfLib.getTyped.
  destruct (PdfLib.getField form fieldName) as [f|]; [|done].
  destruct (PdfLib.fieldClass f);
    repeat (case_bool_decide; try discriminate); cbn; try done; by intros ->.
Qed.

End applier.

Lemma apply_frame_witness :
  (@Apply.applyValueToField Reference.builtins anyText offered smallForm
     {[ "agree" := Apply.Checked true ]} "full_name" (Types.VString "Jane Doe")).1
    !! "agree" = Some (Apply.Checked true).
Proof.
  etrans;
    [ exact (proj1 (@apply_frame Reference.builtins anyText offered smallForm
               {[ "agree" := Apply.Checked true ]} "full_name"
               (Types.VString "Jane Doe") "agree" ltac:(discriminate)))
    | vm_compute; reflexivity ].
Defined.

Lemma apply_text_witness :
  (@Apply.applyValueToField Reference.builtins anyText offered smallForm ∅
     "full_name" (Types.VString "Jane Doe")).1 !! "full_name"
  = Some (Apply.Text "Jane Doe").
Proof.
  refine (proj1 (@apply_text Reference.builtins anyText offered smallForm ∅
                   "full_name" (Types.VString "Jane Doe") _ _ _)).
  - vm_compute. reflexivity.
  - reflexivity.
Defined.

Lemma apply_checkbox_witness :
  exists on,
    @Apply.applyValueToField Reference.builtins anyText offered smallForm ∅
      "agree" (Types.VString "yes")
    = (<[ "agree" := Apply.Checked on ]> ∅, None) /\ on <> true.
Proof.
  destruct (@apply_checkbox Reference.builtins anyText offered smallForm ∅
              "agree" (Types.VString "yes") _ eq_refl) as (on & Heq & Hon).
  exists on. split; [exact Heq|].
  intros Htrue. apply Hon in Htrue as [Hb | (s & [= <-] & Hs)]; discriminate.
Defined.

Lemma apply_unsupported_witness :
  @Apply.applyValueToField Reference.builtins anyText offered smallForm ∅
    "colour" (Types.VString "blue")
  = (∅, Some "colour").
Proof.
  apply (@apply_unsupported Reference.builtins anyText offered smallForm ∅
           "colour" (Types.VString "blue")).
  vm_compute. reflexivity.
Defined.

(** ** The fill loop and the applier together *)

Section loop_and_applier.
Context `{!JS.Builtins}.
Variable setText : PdfLib.PDFField -> string -> bool.
Variable select : PdfLib.PDFField -> string -> bool.
Variable pdfDoc : PdfLib.PDFDocument.
Variable availableFieldNames : list string.
Variable fieldKinds : gmap string Fill.PdfFieldKind.
Variable values : list (string * Types.Value).

Local Abbreviation pass := (Fill.pass pdfDoc availableFieldNames fieldKinds values).
Local Abbreviation loop := (Fill.loop pdfDoc availableFieldNames fieldKinds values).
Local Abbreviation applyPasses := (Apply.applyPasses setText select).

(** X10: A field that a pass fills was found for its proposal by name, or,
    when the resolver found none, has one of the kinds that the type of
    the proposal asks for and was not used before: no field is filled on
    neither ground. *)
Theorem target_by_name_or_kind used field n :
  Fill.targetName (pass used field) = Some n ->
  Fill.resolvedName (pass used field) = Some n \/
  (JS.truthy (Fill.resolvedName (pass used field)) = false /\
   Fill.kindOf fieldKinds n ∈ Fill.desiredKindsOf (Fill.type field) /\
   n ∉ used).
Proof.
  unfold Fill.pass.
  destruct (JS.truthy (Some (Fill.name field))); cbn [negb]; [|discriminate].
  destruct (Fill.valueOf values (Fill.name field)); [|discriminate].
  set (resolved := Fill.resolveFieldName _ _ _ _).
  destruct (JS.truthy resolved) eqn:Htruthy; cbn [negb andb].
  - destruct resolved as [[|c r]|]; cbn; [discriminate | | discriminate].
    intros [= <-]. by left.
  - destruct (negb _).
    + destruct (find _ availableFieldNames) as [[|c r]|] eqn:Hfind; cbn;
        [discriminate | | discriminate].
      intros [= <-]. right. split; [exact Htruthy|].
      apply find_elem_of in Hfind as [_ Hf].
      apply andb_prop in Hf as [Hfree Hkind]. split.
      * by apply bool_decide_eq_true in Hkind.
      * apply negb_true_iff in Hfree. by apply bool_decide_eq_false in Hfree.
    + destruct resolved as [[|c r]|]; cbn; discriminate.
Qed.

Lemma apply_lookup_ne form state fieldName value other :
  other <> fieldName ->
  (Apply.applyValueToField setText select form state fieldName value).1 !! other
  = state !! other.
Proof.
  intros Hother.
  destruct (apply_cases setText select form state fieldName value)
    as [-> | (f & content & _ & _ & ->)]; cbn [fst]; [done|].
  by rewrite lookup_insert_ne.
Qed.

Lemma applyPasses_other form state passes n :
  (forall q m value,
     q ∈ passes -> Fill.effect q = Some (Fill.applyValueToField m value) ->
     m <> n) ->
  applyPasses form state passes !! n = state !! n.
Proof.
  revert state. induction passes as [|q passes IH]; intros state Hall;
    [reflexivity|].
  change (applyPasses form (Apply.applyPass setText select form state q) passes
            !! n = state !! n).
  rewrite IH by (intros q' m v Hq'; apply Hall; by right).
  unfold Apply.applyPass.
  destruct (Fill.effect q) as [[m v| |]|] eqn:He; try reflexivity.
  apply apply_lookup_ne. intros ->.
  eapply (Hall q m v); [by left | exact He | reflexivity].
Qed.

(** X11: what a pass of the loop writes into a text field stays there: since
    the name is reserved, no later pass of the run applies a value to the
    same field. *)
Theorem applied_text_kept form state fieldsToFill pre p post n value textField :
  loop ∅ fieldsToFill = (pre ++ p :: post)%list ->
  Fill.effect p = Some (Fill.applyValueToField n value) ->
  PdfLib.getTextField form n = Some textField ->
  setText textField (Fill.String_ value) = true ->
  applyPasses form state (loop ∅ fieldsToFill) !! n
  = Some (Apply.Text (Fill.String_ value)).
Proof.
  intros Hrun Heffect Hfield Hok. rewrite Hrun.
  destruct (loop_split _ _ _ _ _ _ _ _ _ Hrun)
    as (used1 & field & rest & -> & -> & _ & _).
  assert (n ∈ Fill.used (pass used1 field)) as Hused.
  { destruct (Fill.targetName (pass used1 field)) as [m|] eqn:Ht.
    - pose proof (pass_target _ _ _ _ _ _ _ Ht) as (_ & _ & _ & -> & v & _ & He).
      rewrite He in Heffect. simplify_eq. set_solver.
    - apply pass_no_target in Ht as [_ Ht]. by apply Ht in Heffect. }
  unfold Apply.applyPasses. rewrite foldl_app. cbn [foldl].
  change (foldl (Apply.applyPass setText select form) ?s ?l)
    with (applyPasses form s l).
  rewrite applyPasses_other.
  - unfold Apply.applyPass. rewrite Heffect.
    unfold Apply.applyValueToField. rewrite Hfield. cbn. rewrite Hok. cbn.
    apply lookup_insert_eq.
  - intros q m v Hq He ->.
    apply loop_later in Hq as (_ & _ & _ & _ & Hfresh).
    by apply (Hfresh _ _ He).
Qed.

End loop_and_applier.

Lemma target_by_name_or_kind_witness :
  Fill.kindOf inventoryKinds "b" ∈ Fill.desiredKindsOf (Some Types.checkbox).
Proof.
  assert (Fill.targetName
            (@Fill.pass Reference.builtins blankPage inventory inventoryKinds
               answers {[ "a" ]}
               {| Fill.name := "agree"; Fill.type := Some Types.checkbox;
                  Fill.bbox := None |}) = Some "b") as Htarget
    by (vm_compute; reflexivity).
  pose proof (target_by_name_or_kind _ _ _ _ _ _ _ Htarget) as H.
  destruct H as [Hname | (_ & Hkind & _)];
    [vm_compute in Hname; discriminate Hname | exact Hkind].
Defined.

Lemma applied_text_kept_witness :
  @Apply.applyPasses Reference.builtins anyText offered
    [ {| PdfLib.getName := "a"; PdfLib.fieldClass := PdfLib.PDFTextField;
         PdfLib.getOptions := None |} ] ∅
    (@Fill.loop Reference.builtins blankPage inventory inventoryKinds answers ∅
       proposals) !! "a"
  = Some (Apply.Text "1").
Proof.
  refine (@applied_text_kept Reference.builtins anyText offered blankPage inventory
           inventoryKinds answers
           [ {| PdfLib.getName := "a"; PdfLib.fieldClass := PdfLib.PDFTextField;
                PdfLib.getOptions := None |} ] ∅ proposals [] _ _ "a"
           (Types.VString "1") _ _ _ _ _);
    [reflexivity | vm_compute; reflexivity ..].
Defined.

(** ** What the validator retains *)

Section validator_more.
Context `{!JS.Builtins}.

Lemma truthy_nonempty (s : string) : JS.truthy (Some s) = true -> s <> "".
Proof. by destruct s. Qed.

Lemma parseBlock_named block detection :
  Detect.parseBlock block = Some detection ->
  Forall (fun f => Types.name f <> "" /\ Types.label f <> "")
         (Detect.fields detection) /\
  Detect.title detection <> Some "".
Proof.
  unfold Detect.parseBlock. intros Hblock.
  destruct (JS.JSON_parse block) as [parsed|]; [|discriminate].
  cbn in Hblock.
  destruct (mapM Detect.mapItem (Detect.fieldsRaw parsed)) as [mapped|];
    [|discriminate].
  cbn in Hblock. injection Hblock as <-. cbn [Detect.fields Detect.title]. split.
  - apply Forall_forall. intros f Hf.
    apply list_elem_of_In, filter_In in Hf as [_ Hkeep].
    apply andb_prop in Hkeep as [Hname Hlabel].
    split; by apply truthy_nonempty.
  - unfold Detect.titleOf.
    destruct (JS.optProp _ "title") as [[| | |t| |]|]; try discriminate.
    destruct (0 <? String.length (JS.trim t))%nat eqn:Hlen; [|discriminate].
    intros [= Ht]. rewrite Ht in Hlen. discriminate.
Qed.

Lemma parseResponse_named raw :
  Forall (fun f => Types.name f <> "" /\ Types.label f <> "")
         (Detect.fields (Detect.parseResponse raw)) /\
  Detect.title (Detect.parseResponse raw) <> Some "".
Proof.
  unfold Detect.parseResponse.
  destruct (Detect.parseBlock _) as [detection|] eqn:Hblock.
  - by apply parseBlock_named in Hblock.
  - split; [constructor | discriminate].
Qed.

(** X12: whatever the recognizer answers, every field that the validator
    retains has a name and a label that are not empty, and the title is
    never the empty string. *)
Theorem retained_fields_named raw :
  (forall f,
     f ∈ Detect.fields (Detect.parseResponse raw) ->
     Types.name f <> "" /\ Types.label f <> "") /\
  Detect.title (Detect.parseResponse raw) <> Some "".
Proof.
  pose proof (parseResponse_named raw) as [Hall Htitle].
  rewrite Forall_forall in Hall. split; [exact Hall | exact Htitle].
Qed.

(** X13: the entries are validated all or none: one entry on which the
    callback of [map] throws (the entry [null], for one) makes the
    [catch] discard every field and the title. *)
Theorem one_bad_entry_discards_all raw parsed item :
  JS.JSON_parse (Detect.jsonBlock raw) = Some parsed ->
  item ∈ Detect.fieldsRaw parsed ->
  Detect.mapItem item = None ->
  Detect.parseResponse raw = {| Detect.fields := []; Detect.title := None |}.
Proof.
  intros Hparse Hitem Hthrow. apply parseResponse_catch.
  unfold Detect.parseBlock. rewrite Hparse. cbn.
  destruct (mapM Detect.mapItem (Detect.fieldsRaw parsed)) as [mapped|] eqn:Hmap;
    [|reflexivity].
  assert (is_Some (mapM Detect.mapItem (Detect.fieldsRaw parsed))) as Hsome by eauto.
  rewrite mapM_is_Some, Forall_forall in Hsome.
  destruct (Hsome _ Hitem) as [f Hf]. congruence.
Qed.

(** X14: an entry whose label is absent or [null] gets its name as label. *)
Theorem label_defaults_to_name item f :
  Detect.mapItem item = Some f ->
  JS.prop item "label" = Some None \/ JS.prop item "label" = Some (Some JS.JNull) ->
  Types.label f = Types.name f.
Proof.
  unfold Detect.mapItem. intros Hmap Hlabel.
  destruct (JS.prop item "name") as [item_name|]; [|discriminate].
  destruct (JS.prop item "label") as [item_label|]; [|discriminate].
  assert (JS.nullish item_label (JS.nullish item_name (JS.JString ""))
          = JS.nullish item_name (JS.JString "")) as Hnull.
  { by destruct Hlabel as [[= ->]|[= ->]]. }
  cbn [mbind option_bind] in Hmap. rewrite Hnull in Hmap.
  repeat match type of Hmap with
         | mbind _ ?m = Some _ =>
             destruct m; [cbn [mbind option_bind] in Hmap | discriminate]
         end.
  by injection Hmap as <-.
Qed.

End validator_more.

Lemma one_bad_entry_discards_all_witness :
  @Detect.parseResponse Reference.builtins nullEntry
  = {| Detect.fields := []; Detect.title := None |}.
Proof.
  refine (@one_bad_entry_discards_all Reference.builtins nullEntry
            (JS.JObject
               [ ("title", JS.JString "T");
                 ("fields",
                  JS.JArray [ JS.JObject [ ("name", JS.JString "a");
                                           ("label", JS.JString "A") ];
                              JS.JNull ]) ])
            JS.JNull _ _ _).
  - vm_compute. reflexivity.
  - vm_compute. right. left.
  - reflexivity.
Defined.

Lemma label_defaults_to_name_witness :
  exists f,
    @Detect.mapItem Reference.builtins (JS.JObject [("name", JS.JString "a")])
    = Some f /\
    Types.label f = Types.name f.
Proof.
  eexists. split; [vm_compute; reflexivity|].
  refine (@label_defaults_to_name Reference.builtins
            (JS.JObject [("name", JS.JString "a")]) _ _ _).
  - vm_compute. reflexivity.
  - left. reflexivity.
Defined.

(** ** The code fence *)

Lemma ascii_lower_backquote (c : ascii) :
  Ascii.eqb c (ascii_of_nat 96) = false ->
  Ascii.eqb (ascii_of_nat 96) (JS.ascii_lower c) = false.
Proof. destruct c as [[] [] [] [] [] [] [] []]; vm_compute; congruence. Qed.

Lemma dropPrefixNoCase_app p s r t :
  JS.dropPrefixNoCase p s = Some r ->
  JS.dropPrefixNoCase p (s ++ t) = Some (r ++ t).
Proof.
  revert s. induction p as [|a p IH]; intros s; cbn.
  - by intros [= ->].
  - destruct s as [|b s]; [discriminate|].
    change (String b s ++ t) with (String b (s ++ t)). cbn.
    destruct (Ascii.eqb _ _); [apply IH | discriminate].
Qed.

Lemma matchFence_cons c r :
  Ascii.eqb c (ascii_of_nat 96) = false ->
  JS.matchFence (String c r) = JS.matchFence r.
Proof.
  intros Hc. cbn [JS.matchFence].
  replace (JS.dropPrefixNoCase (JS.fence ++ "json") (String c r))
    with (@None string); [reflexivity|].
  change (JS.fence ++ "json") with (String (ascii_of_nat 96) ("``json")).
  cbn [JS.dropPrefixNoCase].
  change (JS.ascii_lower (ascii_of_nat 96)) with (ascii_of_nat 96).
  by rewrite ascii_lower_backquote.
Qed.

Lemma matchFence_skip pre rest :
  noBackquote pre = true -> JS.matchFence (pre ++ rest) = JS.matchFence rest.
Proof.
  induction pre as [|c pre IH]; [reflexivity|].
  cbn [noBackquote]. intros [Hc Hpre]%andb_prop. apply negb_true_iff in Hc.
  change (String c pre ++ rest) with (String c (pre ++ rest)).
  by rewrite (matchFence_cons _ _ Hc), (IH Hpre).
Qed.

Lemma prefix_app (s t : string) : String.prefix s (s ++ t) = true.
Proof.
  induction s as [|c s IH]; [by destruct t|].
  change (String c s ++ t) with (String c (s ++ t)).
  cbn [String.prefix]. destruct (ascii_dec c c); [exact IH | done].
Qed.

Lemma prefix_app_r (p s t : string) :
  String.prefix p s = true -> String.prefix p (s ++ t) = true.
Proof.
  revert s. induction p as [|a p IH]; intros s; [by destruct (s ++ t)|].
  destruct s as [|b s]; [discriminate|].
  change (String b s ++ t) with (String b (s ++ t)). cbn [String.prefix].
  destruct (ascii_dec a b); [apply IH | discriminate].
Qed.

Lemma prefix_app_long (p s t : string) :
  (String.length p <= String.length s)%nat ->
  String.prefix p (s ++ t) = String.prefix p s.
Proof.
  revert s. induction p as [|a p IH]; intros s Hlen.
  - by destruct s, t.
  - destruct s as [|b s]; [cbn in Hlen; lia|].
    change (String b s ++ t) with (String b (s ++ t)). cbn [String.prefix].
    destruct (ascii_dec a b); [|reflexivity].
    apply IH. cbn in Hlen. lia.
Qed.

Lemma append_assoc (s t u : string) : (s ++ t) ++ u = s ++ t ++ u.
Proof.
  induction s as [|c s IH]; [reflexivity|].
  change (String c (s ++ t) ++ u = String c (s ++ t ++ u)).
  change (String c ((s ++ t) ++ u) = String c (s ++ t ++ u)). by rewrite IH.
Qed.

Lemma length_append (s t : string) :
  String.length (s ++ t) = (String.length s + String.length t)%nat.
Proof.
  induction s as [|c s IH]; [reflexivity|].
  change (String c s ++ t) with (String c (s ++ t)). cbn [String.length].
  by rewrite IH.
Qed.

Lemma noFence_app_l (s t : string) : noFence (s ++ t) = true -> noFence s = true.
Proof.
  induction s as [|c s IH]; [reflexivity|].
  change (String c s ++ t) with (String c (s ++ t)). cbn [noFence].
  intros [Hhere Hlater]%andb_prop. rewrite (IH Hlater), andb_true_r.
  apply negb_true_iff in Hhere. apply negb_true_iff.
  destruct (String.prefix JS.fence (String c s)) eqn:Hprefix; [|reflexivity].
  apply (prefix_app_r _ _ t) in Hprefix.
  change (String c s ++ t) with (String c (s ++ t)) in Hprefix. congruence.
Qed.

Lemma ascii_lower_backquote_eq (c : ascii) :
  Ascii.eqb (ascii_of_nat 96) (JS.ascii_lower c) = true -> c = ascii_of_nat 96.
Proof. destruct c as [[] [] [] [] [] [] [] []]; vm_compute; congruence. Qed.

Lemma dropPrefixNoCase_fence s rest :
  JS.dropPrefixNoCase (JS.fence ++ "json") s = Some rest ->
  String.prefix JS.fence s = true.
Proof.
  change (JS.fence ++ "json")
    with (String (ascii_of_nat 96)
            (String (ascii_of_nat 96) (String (ascii_of_nat 96) "json"))).
  destruct s as [|a [|b [|c s]]]; cbn [JS.dropPrefixNoCase];
    change (JS.ascii_lower (ascii_of_nat 96)) with (ascii_of_nat 96);
    repeat match goal with
           | |- context [Ascii.eqb (ascii_of_nat 96) (JS.ascii_lower ?x)] =>
               let H := fresh in
               destruct (Ascii.eqb (ascii_of_nat 96) (JS.ascii_lower x)) eqn:H;
               [apply ascii_lower_backquote_eq in H; subst x | discriminate]
           end; try discriminate.
  intros _.
  change (String.prefix JS.fence (JS.fence ++ s) = true). apply prefix_app.
Qed.

Lemma matchFence_none s : noFence s = true -> JS.matchFence s = None.
Proof.
  induction s as [|c s IH]; [reflexivity|].
  cbn [noFence]. intros [Hc Hs]%andb_prop. apply negb_true_iff in Hc.
  cbn [JS.matchFence].
  destruct (JS.dropPrefixNoCase (JS.fence ++ "json") (String c s)) as [rest|]
    eqn:Hopen.
  - apply dropPrefixNoCase_fence in Hopen. congruence.
  - cbn [mbind option_bind]. by apply IH.
Qed.

Lemma before_fence inner post :
  noFence (inner ++ JS.bytes [96; 96]) = true ->
  JS.before JS.fence (inner ++ JS.fence ++ post) = Some inner.
Proof.
  induction inner as [|c inner IH].
  - intros _. change ("" ++ JS.fence ++ post) with (JS.fence ++ post).
    destruct (JS.fence ++ post) eqn:Heq; cbn [JS.before]; rewrite <- Heq;
      by rewrite prefix_app.
  - change (String c inner ++ JS.bytes [96; 96])
      with (String c (inner ++ JS.bytes [96; 96])).
    cbn [noFence]. intros [Hc Hinner]%andb_prop. apply negb_true_iff in Hc.
    change (String c inner ++ JS.fence ++ post)
      with (String c (inner ++ JS.fence ++ post)).
    cbn [JS.before].
    replace (String.prefix JS.fence (String c (inner ++ JS.fence ++ post)))
      with false.
    + by rewrite (IH Hinner).
    + rewrite <- Hc.
      change (JS.fence ++ post)
        with (JS.bytes [96; 96] ++ String (ascii_of_nat 96) post).
      rewrite <- append_assoc.
      change (String c ((inner ++ JS.bytes [96; 96]) ++ String (ascii_of_nat 96) post))
        with (String c (inner ++ JS.bytes [96; 96]) ++ String (ascii_of_nat 96) post).
      symmetry. apply prefix_app_long.
      cbn [String.length]. rewrite length_append. cbn. lia.
Qed.

Lemma matchFence_here raw rest inner :
  JS.dropPrefixNoCase (JS.fence ++ "json") raw = Some rest ->
  JS.before JS.fence (JS.trimStart rest) = Some inner ->
  JS.matchFence raw = Some inner.
Proof.
  intros Hopen Hclose.
  destruct raw; cbn [JS.matchFence]; rewrite Hopen; cbn [mbind option_bind];
    by rewrite Hclose.
Qed.

Section fence.
Context `{!JS.Builtins}.

(** X15: an answer in a code fence is validated as the text inside the
    fence, when no back quote stands before the opening fence and the
    text inside holds no fence, neither of its own nor with the back
    quotes of the closing one (it does not end in a back quote): what
    stands before the opening fence and after the closing one is dropped,
    the marker [json] is read in any letter case, and the white space
    after it is skipped. *)
Theorem fenced_answer pre opening rest inner post :
  noBackquote pre = true ->
  JS.dropPrefixNoCase (JS.fence ++ "json") opening = Some "" ->
  JS.trimStart rest = inner ++ JS.fence ++ post ->
  noFence (inner ++ JS.bytes [96; 96]) = true ->
  Detect.jsonBlock (pre ++ opening ++ rest) = inner /\
  Detect.parseResponse (pre ++ opening ++ rest) = Detect.parseResponse inner.
Proof.
  intros Hpre Hopening Hrest Hinner.
  assert (Detect.jsonBlock (pre ++ opening ++ rest) = inner) as Hblock.
  { unfold Detect.jsonBlock. rewrite (matchFence_skip _ _ Hpre).
    rewrite (matchFence_here _ rest inner); [reflexivity | |].
    - exact (dropPrefixNoCase_app _ _ _ rest Hopening).
    - rewrite Hrest. by apply before_fence. }
  split; [exact Hblock|].
  unfold Detect.parseResponse. rewrite Hblock.
  unfold Detect.jsonBlock.
  by rewrite (matchFence_none _ (noFence_app_l _ _ Hinner)).
Qed.

End fence.

Lemma fenced_answer_witness :
  @Detect.parseResponse Reference.builtins fencedAnswer
  = @Detect.parseResponse Reference.builtins (answer 2 ++ JS.bytes [10]).
Proof.
  refine (proj2 (@fenced_answer Reference.builtins
                   ("Here is the form:" ++ JS.bytes [10]) (JS.fence ++ "JSON")
                   (JS.bytes [10] ++ answer 2 ++ JS.bytes [10] ++ JS.fence
                    ++ JS.bytes [10] ++ "Done.")
                   (answer 2 ++ JS.bytes [10]) (JS.bytes [10] ++ "Done.")
                   _ _ _ _)); vm_compute; reflexivity.
Defined.

(** ** Drawing a value *)

Lemma pageIndex_in_range (pagesLength : Z) (b : Types.FieldBBox) :
  (1 <= pagesLength)%Z -> (0 <= Fill.pageIndex pagesLength b < pagesLength)%Z.
Proof. unfold Fill.pageIndex. cbn zeta. destruct (_ && _); lia. Qed.

(** X16: A value is drawn for every proposal that has a box, whatever the
    numbers in the box, on every document that has a page: the only
    returns before [drawText] are those for a proposal without a box and
    a document without pages. *)
Theorem draws_unless_no_box_or_page pdfDoc field value :
  Fill.drawValueAtBBox pdfDoc field value = None <->
  Fill.bbox field = None \/ PdfLib.getPages pdfDoc = [].
Proof.
  unfold Fill.drawValueAtBBox.
  destruct (Fill.bbox field) as [b|]; [|by split; [left|]].
  cbn zeta. destruct (PdfLib.getPages pdfDoc) as [|page0 pages] eqn:Hpages.
  - split; [by right | reflexivity].
  - assert (is_Some ((page0 :: pages) !!
                       Z.to_nat (Fill.pageIndex (Z.of_nat (length (page0 :: pages))) b)))
      as [page Hpage].
    { apply lookup_lt_is_Some.
      pose proof (pageIndex_in_range (Z.of_nat (length (page0 :: pages))) b) as Hrange.
      cbn [length] in *. lia. }
    rewrite Hpage. split; [discriminate | by intros [?|?]].
Qed.

Lemma drawText_on_page_witness :
  exists drawn,
    Fill.drawValueAtBBox blankPage (Fill.ofDetectedField signatureDate)
      (Types.VString "2024-01-01") = Some drawn /\
    (2 <= Fill.dt_x drawn <= JS.sub 612 4)%Q /\
    (2 <= Fill.dt_y drawn <= 792)%Q /\
    (9 <= Fill.dt_size drawn <= 16)%Q.
Proof.
  destruct (Fill.drawValueAtBBox blankPage (Fill.ofDetectedField signatureDate)
              (Types.VString "2024-01-01")) as [drawn|] eqn:Hdrawn;
    [|vm_compute in Hdrawn; discriminate Hdrawn].
  exists drawn. split; [reflexivity|].
  destruct (drawText_on_page _ _ _ _ Hdrawn)
    as (b & page & Hb & Hpage & Hx & Hy & Hsize).
  assert (page = {| PdfLib.getWidth := 612; PdfLib.getHeight := 792 |}) as ->.
  { vm_compute in Hdrawn. injection Hdrawn as <-.
    vm_compute in Hpage. by injection Hpage as <-. }
  split; [|split; [|exact Hsize]].
  - apply Hx. vm_compute. discriminate.
  - apply Hy.
    + vm_compute. discriminate.
    + vm_compute. reflexivity.
    + injection Hb as <-. vm_compute. discriminate.
Defined.

(** ** The answers of the routes *)

Lemma detect_resolved_elem_of `{!JS.Builtins} requested available n :
  Detect.resolveFieldName requested available = Some n -> n ∈ available.
Proof.
  unfold Detect.resolveFieldName. cbn zeta.
  repeat (destruct (JS.truthy (find _ available));
          [by intros [? _]%find_elem_of|]).
  done.
Qed.

Section answers.
Context `{!JS.Builtins}.

(** X17: an answer 200 of the fill route means that the document has no
    structured field, that every pass was an overlay pass and that neither
    [page.drawText] nor [pdfDoc.save] threw: the route never answers 200
    after applying a value to a structured field. *)
Theorem fill_saved_is_overlay load drawText save request passes :
  Fill.POST load drawText save request = Fill.Saved passes ->
  (exists payload values pdfDoc,
     request = Some payload /\
     Types.pdfBase64 payload <> "" /\
     Types.values payload = Some values /\
     load (Types.pdfBase64 payload) = Some pdfDoc /\
     PdfLib.getFields pdfDoc = [] /\
     passes = overlayPass pdfDoc values <$> Fill.fieldsToFill payload values) /\
  forallb (Fill.getsPast drawText) passes = true /\
  save passes = true /\
  Forall (fun p =>
            Fill.targetName p = None /\
            forall n value, Fill.effect p <> Some (Fill.applyValueToField n value))
         passes.
Proof.
  unfold Fill.POST. intros Hpost.
  destruct request as [payload|]; [|discriminate].
  destruct (Types.pdfBase64 payload) as [|c base64] eqn:Hpdf; [discriminate|].
  destruct (Types.values payload) as [values|] eqn:Hvalues; [|discriminate].
  destruct (load (String c base64)) as [pdfDoc|] eqn:Hload; [|discriminate].
  cbn zeta in Hpost.
  destruct (PdfLib.getFields pdfDoc) as [|f form] eqn:Hform; [|discriminate].
  cbn [length Nat.ltb Nat.leb fmap list_fmap] in Hpost.
  rewrite loop_nil in Hpost.
  destruct (forallb _ _ && save _) eqn:Hthrown; [|discriminate].
  injection Hpost as <-. apply andb_prop in Hthrown as [Hdrawn Hsaved].
  split; [|split; [exact Hdrawn|split; [exact Hsaved|]]].
  - exists payload, values, pdfDoc. rewrite Hpdf. by repeat split.
  - apply Forall_fmap, Forall_forall. intros field _. cbn.
    split; [reflexivity|]. intros n value. by repeat case_match.
Qed.

(** X18: the enrichment of a proposal from the form keeps its name, label,
    placeholder and box, never shortens its options, changes its type only
    to [radio], [checkbox] or [select], and probes only a name of the
    form, which is not empty; a proposal for which no name is resolved is
    left as it is. *)
Theorem enrich_keeps form pdfFieldNames field :
  let enriched := (Detect.enrich form pdfFieldNames field).1 in
  let probed := (Detect.enrich form pdfFieldNames field).2 in
  Types.name enriched = Types.name field /\
  Types.label enriched = Types.label field /\
  Types.placeholder enriched = Types.placeholder field /\
  Types.bbox enriched = Types.bbox field /\
  (forall old, Types.options field = Some old ->
     exists new, Types.options enriched = Some new /\
                 (length old <= length new)%nat) /\
  (Types.type enriched <> Types.type field ->
   Types.type enriched ∈ [Types.radio; Types.checkbox; Types.select]) /\
  (probed = None -> enriched = field) /\
  (forall n, probed = Some n -> n ∈ pdfFieldNames /\ n <> "").
Proof.
  unfold Detect.enrich.
  destruct (Detect.resolveFieldName _ _) as [[|c r]|] eqn:Hresolved; cbn zeta;
    cbn [fst snd].
  1, 3: by split_and!; try done; intros old ->; exists old.
  set (resolved := String c r) in *.
  cbn [Types.name Types.label Types.placeholder Types.bbox Types.options Types.type].
  split_and!; try done.
  - intros old Hold. rewrite Hold.
    repeat case_match; simplify_eq; eexists; (split; [reflexivity|]);
      try match goal with
          | Hlt : (_ <? _)%nat = true |- _ => apply Nat.ltb_lt in Hlt
          end; lia.
  - intros Htype. repeat case_bool_decide; try done; set_solver.
  - intros n [= <-]. split; [|done].
    by apply detect_resolved_elem_of in Hresolved.
Qed.

(** X19: an answer 200 of the detect route carries only fields with a name and
    a label, no empty title, and comes of a document without structured
    fields, none of which was probed: the fields and the title are those
    of the validator. *)
Theorem detect_answer_named load generateContent apiKey file fields title probed :
  Detect.POST load generateContent apiKey file = Detect.Json fields title probed ->
  Forall (fun f => Types.name f <> "" /\ Types.label f <> "") fields /\
  title <> Some "" /\
  probed = [] /\
  exists pdfBuffer pdfDoc answer,
    file = Some pdfBuffer /\ load pdfBuffer = Some pdfDoc /\
    PdfLib.getFields pdfDoc = [] /\
    generateContent pdfBuffer = Some answer /\
    fields = Detect.fields (Detect.parseResponse (JS.trim answer)) /\
    title = Detect.title (Detect.parseResponse (JS.trim answer)).
Proof.
  unfold Detect.POST. intros Hpost.
  destruct (negb (JS.truthy apiKey)); [discriminate|].
  destruct file as [pdfBuffer|]; [|discriminate].
  destruct (load pdfBuffer) as [pdfDoc|] eqn:Hload; [|discriminate].
  cbn zeta in Hpost.
  destruct (PdfLib.getFields pdfDoc) as [|f form] eqn:Hform; [|discriminate].
  cbn [length Nat.ltb Nat.leb fmap list_fmap] in Hpost.
  destruct (generateContent pdfBuffer) as [answer|] eqn:Hanswer; [|discriminate].
  injection Hpost as <- <- <-.
  set (parsed := Detect.parseResponse (JS.trim answer)).
  assert (Detect.enrich [] [] <$> Detect.fields parsed
          = (fun f => (f, None)) <$> Detect.fields parsed) as ->.
  { apply list_fmap_ext. intros _ field _. apply enrich_nil. }
  rewrite <- list_fmap_compose, list_fmap_id.
  destruct (parseResponse_named (JS.trim answer)) as [Hnamed Htitle].
  split; [exact Hnamed|]. split; [exact Htitle|]. split.
  - induction (Detect.fields parsed) as [|d ds IH]; [reflexivity | exact IH].
  - by exists pdfBuffer, pdfDoc, answer.
Qed.

End answers.

Lemma fill_saved_is_overlay_witness :
  exists passes,
    @Fill.POST Reference.builtins (fun _ => Some blankPage) (fun _ => true)
      (fun _ => true) (Some fillRequest)
    = Fill.Saved passes /\
    Forall (fun p =>
              Fill.targetName p = None /\
              forall n value,
                Fill.effect p <> Some (Fill.applyValueToField n value))
           passes.
Proof.
  destruct (@Fill.POST Reference.builtins (fun _ => Some blankPage)
              (fun _ => true) (fun _ => true) (Some fillRequest))
    as [passes|error status] eqn:Hpost;
    [|vm_compute in Hpost; discriminate Hpost].
  exists passes. split; [reflexivity|].
  exact (proj2 (proj2 (proj2
           (@fill_saved_is_overlay Reference.builtins _ _ _ _ _ Hpost)))).
Defined.

Lemma detect_answer_named_witness :
  exists fields title probed,
    @Detect.POST Reference.builtins (fun _ => Some blankPage)
      (fun _ => Some (answer 2)) (Some "key") (Some "%PDF")
    = Detect.Json fields title probed /\
    Forall (fun f => Types.name f <> "" /\ Types.label f <> "") fields.
Proof.
  destruct (@Detect.POST Reference.builtins (fun _ => Some blankPage)
              (fun _ => Some (answer 2)) (Some "key") (Some "%PDF"))
    as [fields title probed|error status|] eqn:Hpost;
    [|vm_compute in Hpost; discriminate Hpost ..].
  exists fields, title, probed. split; [reflexivity|].
  exact (proj1 (@detect_answer_named Reference.builtins _ _ _ _ _ _ _ Hpost)).
Defined.

(** ** The page: adjustments *)

Lemma current_insert_eq prev fieldName adj :
  Page.current (<[fieldName := adj]> prev) fieldName = Some adj.
Proof. unfold Page.current. by rewrite lookup_insert_eq. Qed.

Lemma current_insert_ne prev fieldName other adj :
  other <> fieldName ->
  Page.current (<[fieldName := adj]> prev) other = Page.current prev other.
Proof. intros Hne. unfold Page.current. by rewrite lookup_insert_ne. Qed.

(** X20: scaling the font of a field keeps its scale between one half and two,
    whatever the step and however often it is applied, and changes
    neither its offsets nor the adjustment of any other field. *)
Theorem scale_within_bounds fieldName delta prev next :
  Page.scaleFieldFont fieldName delta prev = Some next ->
  exists before after,
    Page.current prev fieldName = Some before /\
    next !! fieldName = Some after /\
    Page.dx after = Page.dx before /\ Page.dy after = Page.dy before /\
    (0.5 <= Page.fontScale after <= 2)%Q /\
    forall other, other <> fieldName -> next !! other = prev !! other.
Proof.
  unfold Page.scaleFieldFont. intros Hscale.
  destruct (Page.current prev fieldName) as [before|]; [|discriminate].
  cbn in Hscale. injection Hscale as <-.
  eexists before, _. split; [reflexivity|].
  split; [apply lookup_insert_eq|]. cbn [Page.dx Page.dy Page.fontScale].
  split; [reflexivity|]. split; [reflexivity|]. split.
  - split.
    + apply Q.min_glb; [lra|]. eapply Qle_trans; [|apply Q.le_max_l]. lra.
    + apply Q.le_min_l.
  - intros other Hother. by rewrite lookup_insert_ne.
Qed.

(** X21: moving a field and scaling a font commute, on one field and on two:
    either order gives the same adjustments. *)
Theorem nudge_scale_commute n dir m delta prev :
  Page.nudgeField n dir prev ≫= Page.scaleFieldFont m delta
  = Page.scaleFieldFont m delta prev ≫= Page.nudgeField n dir.
Proof.
  unfold Page.nudgeField, Page.scaleFieldFont.
  destruct (decide (m = n)) as [->|Hne].
  - destruct (Page.current prev n) as [adj|]; [|reflexivity].
    cbn [mbind option_bind]. rewrite !current_insert_eq. cbn [mbind option_bind].
    rewrite !insert_insert_eq. by destruct dir.
  - destruct (Page.current prev n) as [adj|] eqn:Hn; cbn [mbind option_bind].
    + rewrite (current_insert_ne _ _ _ _ Hne).
      destruct (Page.current prev m) as [adj'|]; [|reflexivity].
      cbn [mbind option_bind].
      rewrite (current_insert_ne _ _ _ _ (not_eq_sym Hne)), Hn.
      cbn [mbind option_bind]. f_equal. by apply insert_insert_ne.
    + destruct (Page.current prev m) as [adj'|]; [|reflexivity].
      cbn [mbind option_bind].
      by rewrite (current_insert_ne _ _ _ _ (not_eq_sym Hne)), Hn.
Qed.

Lemma adjustField_moved adjustments field :
  movedBy adjustments field (Page.adjustField adjustments field).
Proof.
  unfold Page.adjustField, movedBy.
  destruct (Types.bbox field) as [bbox|] eqn:Hbbox; [|by split_and!].
  destruct (adjustments !! Types.name field) as [adj|].
  - cbn. split_and!; try done. by eexists.
  - case_bool_decide; cbn; rewrite ?Hbbox; split_and!; try done; by eexists.
Qed.

Lemma sent_Numbers (fields : list Types.DetectedField) :
  Page.sent <$> (Page.Numbers <$> fields) = fields.
Proof. rewrite <- list_fmap_compose. apply list_fmap_id. Qed.

(** X22: the fields that the page sends to the fill route are the detected
    ones, one for one and in order, with the name, label, type, options
    and placeholder they had; only the box of a field is moved, by the
    offsets of its adjustment, on its page and with its size, and a field
    with a box and without an adjustment whose name is that of a member of
    [Object.prototype] gets a box whose [x] and [y] are [NaN].  Without
    adjustments, and when no field with a box has such a name, they are
    the detected fields. *)
Theorem adjusted_fields_keep fields adjustments :
  Forall2 (movedBy adjustments) fields (Page.adjustedFields fields adjustments) /\
  (adjustments = ∅ ->
   Forall (fun field =>
             Types.bbox field = None \/ Types.name field ∉ Page.inherited) fields ->
   Page.adjustedFields fields adjustments = Page.Numbers <$> fields /\
   Page.sent <$> Page.adjustedFields fields adjustments = fields).
Proof.
  unfold Page.adjustedFields. split.
  - apply Forall2_fmap_r, Forall_Forall2_diag, Forall_forall.
    intros field _. apply adjustField_moved.
  - intros -> Hnames.
    assert (Page.adjustField ∅ <$> fields = Page.Numbers <$> fields) as ->.
    { apply list_fmap_ext. intros i field Hfield.
      rewrite Forall_forall in Hnames.
      pose proof (Hnames field (list_elem_of_lookup_2 _ _ _ Hfield)) as Hname.
      unfold Page.adjustField. rewrite lookup_empty.
      destruct (Types.bbox field); [|reflexivity].
      case_bool_decide; [|reflexivity]. by destruct Hname. }
    split; [reflexivity | apply sent_Numbers].
Qed.

Lemma add_0_double (x : Q) : JS.isDouble x -> JS.add x 0 = x.
Proof.
  unfold JS.isDouble, JS.add. intros Hx. rewrite <- Hx at 2.
  apply double_Qeq. lra.
Qed.

Lemma scale_adjustField fieldName delta prev next field :
  Page.scaleFieldFont fieldName delta prev = Some next ->
  boxOfDoubles field ->
  Fill.ofDetectedField (Page.sent (Page.adjustField next field))
  = Fill.ofDetectedField (Page.sent (Page.adjustField prev field)).
Proof.
  unfold Page.scaleFieldFont, Page.current, Page.adjustField, boxOfDoubles.
  intros Hscale Hdoubles.
  destruct (Types.bbox field) as [bbox|] eqn:Hbbox; [|reflexivity].
  destruct (Hdoubles bbox eq_refl) as [Hx Hy].
  destruct (decide (Types.name field = fieldName)) as [Hname|Hname].
  - rewrite Hname in *.
    destruct (prev !! fieldName) as [adj|].
    + injection Hscale as <-. by rewrite lookup_insert_eq.
    + case_bool_decide; [discriminate|].
      injection Hscale as <-. rewrite lookup_insert_eq.
      unfold Fill.ofDetectedField. cbn. rewrite Hbbox, Hname.
      rewrite (add_0_double _ Hx), (add_0_double _ Hy). by destruct bbox.
  - assert (next !! Types.name field = prev !! Types.name field) as ->; [|done].
    destruct (match prev !! fieldName with Some _ => _ | None => _ end);
      [|discriminate].
    injection Hscale as <-. by rewrite lookup_insert_ne.
Qed.

(** ** The page: values *)

Lemma own_cons k0 v0 rest k :
  Fill.own ((k0, v0) :: rest) k
  = if String.eqb k0 k then Some v0 else Fill.own rest k.
Proof. unfold Fill.own. cbn [find fst]. by destruct (String.eqb k0 k). Qed.

Lemma own_define key value obj k :
  Fill.own (Page.define key value obj) k
  = if String.eqb k key then Some value else Fill.own obj k.
Proof.
  unfold Page.define.
  destruct (Page.has key obj) eqn:Hhas.
  - assert (forall obj,
              Fill.own ((fun kv : string * Types.Value =>
                           if String.eqb (fst kv) key then (key, value) else kv)
                        <$> obj) k
              = if String.eqb k key
                then (if Page.has key obj then Some value else None)
                else Fill.own obj k) as Hreplace.
    { clear. induction obj as [|[k0 v0] rest IH]; [by destruct (String.eqb k key)|].
      cbn [fmap list_fmap fst Page.has existsb]. fold (Page.has key rest).
      destruct (String.eqb k0 key) eqn:Hk0.
      - apply String.eqb_eq in Hk0 as ->. rewrite !own_cons, IH.
        rewrite (String.eqb_sym k key). by destruct (String.eqb key k).
      - rewrite !own_cons, IH. cbn [orb].
        destruct (String.eqb k0 k) eqn:Hk; [|reflexivity].
        apply String.eqb_eq in Hk as ->. by rewrite Hk0. }
    by rewrite Hreplace, Hhas.
  - revert Hhas. unfold Page.has.
    induction obj as [|[k0 v0] rest IH]; cbn [existsb fst Page.insertNew].
    + intros _. rewrite own_cons, (String.eqb_sym key k).
      by destruct (String.eqb k key).
    + intros [Hk0 Hrest]%orb_false_elim.
      destruct (Page.precedes key k0).
      * by rewrite own_cons, (String.eqb_sym key k).
      * rewrite !own_cons, (IH Hrest).
        destruct (String.eqb k0 k) eqn:Hk; [|reflexivity].
        apply String.eqb_eq in Hk as ->. by rewrite Hk0.
Qed.

Lemma own_assign key value obj k :
  key <> "__proto__" ->
  Fill.own (Page.assign key value obj) k
  = if String.eqb k key then Some value else Fill.own obj k.
Proof.
  intros Hkey%String.eqb_neq. unfold Page.assign. rewrite Hkey.
  apply own_define.
Qed.

Lemma valueOf_Some values key value :
  Fill.own values key = Some value -> Fill.valueOf values key = Some value.
Proof. unfold Fill.valueOf. by intros ->. Qed.

Lemma initialValues_last values fields field :
  field ∈ fields ->
  Types.name field <> "__proto__" ->
  exists pre last post,
    fields = (pre ++ last :: post)%list /\
    Types.name last = Types.name field /\
    Forall (fun later => Types.name later <> Types.name field) post /\
    Fill.own
      (foldl (fun values field =>
                Page.assign (Types.name field) (Page.initialValue field) values)
             values fields)
      (Types.name field) = Some (Page.initialValue last).
Proof.
  intros Hin Hname. revert Hin.
  induction fields as [|f fields IH] using rev_ind.
  { by intros ?%elem_of_nil. }
  rewrite foldl_app. cbn [foldl]. intros Hin.
  destruct (decide (Types.name f = Types.name field)) as [Heq|Hne].
  - exists fields, f, []. split; [reflexivity|]. split; [exact Heq|].
    split; [constructor|].
    rewrite own_assign by congruence.
    by rewrite Heq, String.eqb_refl.
  - destruct IH as (pre & last & post & -> & Hlast & Hpost & Hvalue).
    { apply elem_of_app in Hin as [?|Hf]; [done|].
      apply list_elem_of_singleton in Hf. congruence. }
    exists pre, last, (post ++ [f])%list.
    split; [by rewrite <- app_assoc|]. split; [exact Hlast|].
    split; [apply Forall_app; split; [exact Hpost | by constructor]|].
    destruct (decide (Types.name f = "__proto__")) as [Hproto|Hproto].
    + unfold Page.assign. rewrite Hproto. exact Hvalue.
    + rewrite own_assign by done.
      rewrite (proj2 (String.eqb_neq _ _)) by congruence. exact Hvalue.
Qed.

(** X23: after detection every field has a value, which the fill route finds
    under its name: that of the last field of the name, [false] for a
    check box and otherwise the first of its options or, without options,
    the empty string. *)
Theorem initial_values_complete fields field :
  field ∈ fields ->
  Types.name field <> "__proto__" ->
  exists pre last post,
    fields = (pre ++ last :: post)%list /\
    Types.name last = Types.name field /\
    Forall (fun later => Types.name later <> Types.name field) post /\
    Fill.valueOf (Page.initialValues fields) (Types.name field)
    = Some (if bool_decide (Types.type last = Types.checkbox)
            then Types.VBoolean false
            else match Types.options last with
                 | Some (first :: _) => Types.VString first
                 | _ => Types.VString ""
                 end).
Proof.
  intros Hin Hname.
  destruct (initialValues_last [] fields field Hin Hname)
    as (pre & last & post & Hfields & Hlast & Hpost & Hvalue).
  exists pre, last, post. split_and!; try done.
  unfold Page.initialValues. rewrite (valueOf_Some _ _ _ Hvalue).
  unfold Page.initialValue.
  case_bool_decide; [reflexivity|]. by destruct (Types.options last) as [[|??]|].
Qed.


(** ** The page and the fill route together *)

Section page_and_fill.
Context `{!JS.Builtins}.

Lemma fill_POST_proposals load drawText save payload payload' :
  Types.pdfBase64 payload' = Types.pdfBase64 payload ->
  Types.values payload' = Types.values payload ->
  (forall values,
     Fill.fieldsToFill payload' values = Fill.fieldsToFill payload values) ->
  Fill.POST load drawText save (Some payload')
  = Fill.POST load drawText save (Some payload).
Proof.
  intros Hpdf Hvalues Hfields. unfold Fill.POST. rewrite Hpdf, Hvalues.
  destruct (Types.pdfBase64 payload); [reflexivity|].
  destruct (Types.values payload); [|reflexivity].
  by rewrite Hfields.
Qed.

Lemma fieldsToFill_fillBody pdfBase64 values fields adjustments values' :
  fields <> [] ->
  Fill.fieldsToFill (Page.fillBody pdfBase64 values fields adjustments) values'
  = Fill.ofDetectedField
      <$> (Page.sent <$> Page.adjustedFields fields adjustments).
Proof.
  unfold Fill.fieldsToFill, Page.fillBody, Page.adjustedFields.
  cbn [Types.fields]. by destruct fields.
Qed.

(** X24: the font scale that the page sends with a field is not read by the
    fill route: scaling the font of a field on the page (one that has an
    adjustment, or whose name is not that of a member of
    [Object.prototype]) leaves the answer of the route, for the same
    document and values and fields whose boxes hold doubles, as it was. *)
Theorem font_scale_ignored fieldName delta prev next pdfBase64 values fields
    load drawText save :
  Page.scaleFieldFont fieldName delta prev = Some next ->
  Forall boxOfDoubles fields ->
  Fill.POST load drawText save
    (Some (Page.fillBody pdfBase64 values fields next))
  = Fill.POST load drawText save
      (Some (Page.fillBody pdfBase64 values fields prev)).
Proof.
  intros Hscale Hdoubles.
  apply fill_POST_proposals; [reflexivity | reflexivity |].
  intros values'. destruct fields as [|field fields]; [reflexivity|].
  rewrite !fieldsToFill_fillBody by done.
  unfold Page.adjustedFields. rewrite <- !list_fmap_compose.
  apply Forall_fmap_ext_1. eapply Forall_impl; [exact Hdoubles|].
  intros f Hf. cbn. by apply (scale_adjustField _ _ _ _ _ Hscale).
Qed.



End page_and_fill.

Lemma scale_within_bounds_witness :
  exists next after,
    Page.scaleFieldFont "signature_date" 5 nudged = Some next /\
    next !! "signature_date" = Some after /\
    (0.5 <= Page.fontScale after <= 2)%Q.
Proof.
  destruct (Page.scaleFieldFont "signature_date" 5 nudged) as [next|] eqn:Hscale;
    [|vm_compute in Hscale; discriminate Hscale].
  destruct (scale_within_bounds _ _ _ _ Hscale)
    as (before & after & _ & Hafter & _ & _ & Hbounds & _).
  by exists next, after.
Defined.

Lemma adjusted_fields_keep_witness :
  Forall2 (movedBy nudged) (toStringField :: detected)
          (Page.adjustedFields (toStringField :: detected) nudged) /\
  Page.sent <$> Page.adjustedFields detected ∅ = detected.
Proof.
  split.
  - exact (proj1 (adjusted_fields_keep (toStringField :: detected) nudged)).
  - refine (proj2 (proj2 (adjusted_fields_keep detected ∅) eq_refl _)).
    apply Forall_cons_2; [by left|].
    apply Forall_cons_2; [right; refine (bool_decide_unpack _ _); by vm_compute|].
    apply Forall_cons_2; [by left | apply Forall_nil_2].
Defined.

Lemma initial_values_complete_witness :
  is_Some (Fill.valueOf (Page.initialValues detected) "colour").
Proof.
  destruct (initial_values_complete detected (colour ["red"; "green"]))
    as (pre & last & post & _ & _ & _ & Hvalue).
  - left.
  - discriminate.
  - eexists. exact Hvalue.
Defined.

Lemma font_scale_ignored_witness :
  exists next,
    Page.scaleFieldFont "signature_date" 5 nudged = Some next /\
    @Fill.POST Reference.builtins (fun _ => Some blankPage) (fun _ => true)
      (fun _ => true)
      (Some (Page.fillBody "JVBERi0=" (Page.initialValues detected) detected next))
    = @Fill.POST Reference.builtins (fun _ => Some blankPage) (fun _ => true)
        (fun _ => true)
        (Some (Page.fillBody "JVBERi0=" (Page.initialValues detected) detected
                 nudged)).
Proof.
  destruct (Page.scaleFieldFont "signature_date" 5 nudged) as [next|] eqn:Hscale;
    [|vm_compute in Hscale; discriminate Hscale].
  exists next. split; [reflexivity|].
  apply (@font_scale_ignored Reference.builtins _ _ _ _ _ _ _ _ _ _ Hscale).
  apply Forall_cons_2; [intros bbox Hbox; discriminate Hbox|].
  apply Forall_cons_2; [intros bbox [= <-]; vm_compute; by split|].
  apply Forall_cons_2; [intros bbox Hbox; discriminate Hbox | apply Forall_nil_2].
Defined.

